(** * onepassword.keychain: a shallow embedding of [keychain.py]

    The module reads a 1Password "Agile Keychain" vault.  Three classes are
    embedded here: [Keychain] (the orchestrator), [KeychainItem] (with its
    two subclasses) and, as an interface only, [EncryptionKey], whose source
    lives in another module of the package.

    Python objects are mutable and methods may raise; both are made explicit:
    a method is a function from the state of the object it mutates to the
    new state and either an exception or a result.  The state reached when an
    exception is raised is kept, since Python does not undo the assignments
    made before the [raise]. *)

From Stdlib Require Import List String Ascii ZArith Bool Lia.
Import ListNotations.

Local Open Scope string_scope.
Local Open Scope Z_scope.
Local Open Scope list_scope.

Set Warnings "-register-all".

(** ** Python values

    The values that [json.load] / [json.loads] produce: [None], booleans,
    integers, strings, lists and dictionaries.  A dictionary keeps its
    insertion order, so it is an association list (looked up from the front).
    JSON numbers are restricted to integers; strings are sequences of 8-bit
    characters and [str.lower] acts on the ASCII letters. *)

Inductive value : Type :=
| VNone
| VBool (b : bool)
| VInt (n : Z)
| VStr (s : string)
| VList (l : list value)
| VDict (d : list (string * value)).

(** Truth value testing, as done by [if x:], [and], [or]. *)
Definition truthy (v : value) : bool :=
  match v with
  | VNone => false
  | VBool b => b
  | VInt n => negb (n =? 0)
  | VStr s => negb (s =? "")%string
  | VList l => match l with [] => false | _ :: _ => true end
  | VDict d => match d with [] => false | _ :: _ => true end
  end.

(** The exceptions the module can raise, by their Python class.  [External]
    stands for whatever a collaborator raises ([open], [json.load],
    [EncryptionKey.decrypt], [bytes.decode]). *)
Inductive exn : Type :=
| TypeError (msg : string)
| KeyError (k : value)
| AttributeError (type attr : string)
| Exception (msg : string)
| External (what : string).

(** The two failures the specification names.  Looking a key up yields
    [None] when nothing matches, and the caller then fails on
    [None.decrypt]; the base class refuses to extract a password. *)
Definition KeyNotFound : exn := AttributeError "NoneType" "decrypt".
Definition UnsupportedItemType (type : string) : exn :=
  Exception ("Cannot extract a password from this type of keychain item ("
             ++ type ++ ")")%string.

Definition result (A : Type) : Type := (exn + A)%type.

(** Name of the class of a value, as it shows in an [AttributeError]. *)
Definition type_name (v : value) : string :=
  match v with
  | VNone => "NoneType"
  | VBool _ => "bool"
  | VInt _ => "int"
  | VStr _ => "str"
  | VList _ => "list"
  | VDict _ => "dict"
  end.

(** ** Insertion-ordered dictionaries with string keys *)

Section Dict.
Context {V : Type}.

Fixpoint dict_lookup (k : string) (d : list (string * V)) : option V :=
  match d with
  | [] => None
  | (k', v) :: d' => if (k' =? k)%string then Some v else dict_lookup k d'
  end.

(** [d[k] = v]: an existing key keeps its position, a new one goes last. *)
Fixpoint dict_set (k : string) (v : V) (d : list (string * V))
  : list (string * V) :=
  match d with
  | [] => [(k, v)]
  | (k', v') :: d' =>
      if (k' =? k)%string then (k', v) :: d' else (k', v') :: dict_set k v d'
  end.

Definition keys (d : list (string * V)) : list string := map fst d.
Definition values (d : list (string * V)) : list V := map snd d.
End Dict.

(** [obj.get(k)] with default [None]: only dictionaries have [get]. *)
Definition py_get (obj : value) (k : string) : result value :=
  match obj with
  | VDict d => inr (match dict_lookup k d with Some v => v | None => VNone end)
  | _ => inl (AttributeError (type_name obj) "get")
  end.

(** [obj[k]] for a string [k]. *)
Definition py_getitem (obj : value) (k : string) : result value :=
  match obj with
  | VDict d =>
      match dict_lookup k d with
      | Some v => inr v
      | None => inl (KeyError (VStr k))
      end
  | VStr _ => inl (TypeError "string indices must be integers")
  | VList _ => inl (TypeError "list indices must be integers or slices, not str")
  | _ => inl (TypeError "object is not subscriptable")
  end.

(** The one-character strings of a string, as iteration yields them. *)
Fixpoint chars (s : string) : list value :=
  match s with
  | EmptyString => []
  | String c s' => VStr (String c EmptyString) :: chars s'
  end.

(** The elements a [for] loop goes through. *)
Definition py_iter (obj : value) : result (list value) :=
  match obj with
  | VList l => inr l
  | VDict d => inr (map VStr (keys d))
  | VStr s => inr (chars s)
  | _ => inl (TypeError "object is not iterable")
  end.

(** [str.lower] *)
Definition lower_ascii (c : ascii) : ascii :=
  let n := nat_of_ascii c in
  if (Nat.leb 65 n && Nat.leb n 90)%bool then ascii_of_nat (n + 32) else c.

Fixpoint lower (s : string) : string :=
  match s with
  | EmptyString => EmptyString
  | String c s' => String (lower_ascii c) (lower s')
  end.

(** [posixpath.join] *)
Definition startswith_sep (s : string) : bool :=
  match s with String "/"%char _ => true | _ => false end.

Fixpoint endswith_sep (s : string) : bool :=
  match s with
  | EmptyString => false
  | String c EmptyString => (c =? "/")%char
  | String _ s' => endswith_sep s'
  end.

Definition join2 (a b : string) : string :=
  if startswith_sep b then b
  else if ((a =? "")%string || endswith_sep a)%bool then (a ++ b)%string
  else (a ++ "/" ++ b)%string.

Definition os_path_join (a : string) (p : list string) : string :=
  fold_left join2 p a.

(** ** State and exceptions *)

Definition M (S A : Type) : Type := S -> S * result A.

Definition ret {S A} (a : A) : M S A := fun s => (s, inr a).
Definition raise {S A} (e : exn) : M S A := fun s => (s, inl e).
Definition bind {S A B} (m : M S A) (f : A -> M S B) : M S B :=
  fun s => match m s with
           | (s', inr a) => f a s'
           | (s', inl e) => (s', inl e)
           end.
Definition get {S} : M S S := fun s => (s, inr s).
Definition modify {S} (f : S -> S) : M S unit := fun s => (f s, inr tt).
Definition lift {S A} (r : result A) : M S A := fun s => (s, r).

(** A relation between the state before and the state after, kept by a
    computation whatever the state it starts from. *)
Definition keeps {S A} (R : S -> S -> Prop) (m : M S A) : Prop :=
  forall s, R s (fst (m s)).

Notation "x <- m ;; k" := (bind m (fun x => k))
  (at level 61, m at next level, right associativity).
Notation "m ;;; k" := (bind m (fun _ => k))
  (at level 61, right associativity).

(** ** Calls to the collaborators

    A ghost record of the calls made, oldest first.  It is not program state:
    it only lets a theorem say that a call happened, how often and with which
    arguments. *)
Inductive event : Type :=
| EvOpen (path : string)
| EvKeyUnlock (identifier password : string)
| EvKeyDecrypt (identifier : string) (blob : value)
| EvExtractOne (query : string) (choices : list string) (score_cutoff : Z)
| EvDecryptWith (item_identifier : string).

(** An object together with the calls made so far. *)
Record heap (O : Type) : Type := Heap { this : O; calls : list event }.
Arguments Heap {O} _ _.
Arguments this {O} _.
Arguments calls {O} _.

Definition emit {O} (e : event) : M (heap O) unit :=
  modify (fun h => Heap (this h) (calls h ++ [e])).
Definition self {O} : M (heap O) O := fun h => (h, inr (this h)).
Definition update {O} (f : O -> O) : M (heap O) unit :=
  modify (fun h => Heap (f (this h)) (calls h)).

(** ** EncryptionKey *)

Module EncryptionKey.
(** Modelled from the spec: the attributes of [EncryptionKey]
    ([onepassword/encryption_key.py] is a separate module).  The key table
    gives [identifier], [level], the encrypted key material, the iteration
    count and a validation value; a correct [unlock] caches the derived
    key. *)
Record t : Type := Make {
  identifier : string;
  level : string;
  data : string;
  iterations : Z;
  validation : string;
  decrypted_key : option string
}.
End EncryptionKey.

(** What [EncryptionKey.decrypt] returns: text, or bytes yet to be decoded. *)
Inductive plaintext : Type :=
| PText (s : string)
| PBytes (b : list Byte.byte).

(** The collaborators of the module: the methods of [EncryptionKey], the
    fuzzy matcher, the JSON reader and parser.  Everything proved below holds
    whatever they compute. *)
Class Collaborators : Type := {
  (** the constructor of [EncryptionKey], given the entries of a key
      definition as keyword arguments *)
  new_key : value -> result EncryptionKey.t;
  (** [key.unlock(password)]: the key after the call, and its answer *)
  key_unlock : EncryptionKey.t -> string -> EncryptionKey.t * bool;
  (** [key.decrypt(blob)] *)
  key_decrypt : EncryptionKey.t -> value -> result plaintext;
  (** [bytes.decode('utf-8')] *)
  decode_utf8 : list Byte.byte -> result string;
  (** [json.loads(text)] *)
  json_loads : string -> result value;
  (** [json.load(f)] on [open(path, "r")] *)
  read_json : string -> result value;
  (** [fuzzywuzzy.process.extractOne(query, choices, score_cutoff=n)]:
      [None] or a pair of a choice and its score *)
  extractOne : string -> list string -> Z -> option (string * Z)
}.

(** ** The objects *)

(** The class of an item: [KeychainItem] itself or one of its subclasses. *)
Inductive item_class : Type :=
| Generic
| WebForm
| Password.

(** The three attributes that [_read_data_file] creates. *)
Inductive raw_attr : Type :=
| attr_key_identifier
| attr_security_level
| attr_encrypted_json.

Module KeychainItem.
(** The attributes set by [__init__], the class chosen by [build], and the
    three attributes that exist only once the data file was read ([None]
    here: [hasattr] is false). *)
Record t : Type := Make {
  class : item_class;
  identifier : string;
  name : string;
  password : value;
  username : value;
  website : value;
  _path : string;
  _type : string;
  _data : value;
  _key_identifier : option value;
  _security_level : option value;
  _encrypted_json : option value
}.

Definition __init__ (cls : item_class) (identifier name path type : string)
  : t :=
  Make cls identifier name VNone VNone VNone path type VNone None None None.

Definition build (identifier type name path : string) : t :=
  if (type =? "webforms.WebForm")%string then
    __init__ WebForm identifier name path type
  else if ((type =? "passwords.Password")
           || (type =? "wallet.onlineservices.GenericAccount"))%string%bool
  then __init__ Password identifier name path type
  else __init__ Generic identifier name path type.

Definition set_password (v : value) (i : t) : t :=
  Make (class i) (identifier i) (name i) v (username i) (website i)
       (_path i) (_type i) (_data i)
       (_key_identifier i) (_security_level i) (_encrypted_json i).
Definition set_username (v : value) (i : t) : t :=
  Make (class i) (identifier i) (name i) (password i) v (website i)
       (_path i) (_type i) (_data i)
       (_key_identifier i) (_security_level i) (_encrypted_json i).
Definition set_website (v : value) (i : t) : t :=
  Make (class i) (identifier i) (name i) (password i) (username i) v
       (_path i) (_type i) (_data i)
       (_key_identifier i) (_security_level i) (_encrypted_json i).
Definition set_data (v : value) (i : t) : t :=
  Make (class i) (identifier i) (name i) (password i) (username i)
       (website i) (_path i) (_type i) v
       (_key_identifier i) (_security_level i) (_encrypted_json i).
Definition set_key_identifier (v : value) (i : t) : t :=
  Make (class i) (identifier i) (name i) (password i) (username i)
       (website i) (_path i) (_type i) (_data i)
       (Some v) (_security_level i) (_encrypted_json i).
Definition set_security_level (v : value) (i : t) : t :=
  Make (class i) (identifier i) (name i) (password i) (username i)
       (website i) (_path i) (_type i) (_data i)
       (_key_identifier i) (Some v) (_encrypted_json i).
Definition set_encrypted_json (v : value) (i : t) : t :=
  Make (class i) (identifier i) (name i) (password i) (username i)
       (website i) (_path i) (_type i) (_data i)
       (_key_identifier i) (_security_level i) (Some v).

(** [getattr(self, attr)] without default, [None] when [hasattr] is false *)
Definition raw (a : raw_attr) (i : t) : option value :=
  match a with
  | attr_key_identifier => _key_identifier i
  | attr_security_level => _security_level i
  | attr_encrypted_json => _encrypted_json i
  end.
End KeychainItem.

Module Keychain.
Record t : Type := Make {
  _path : string;
  _encryption_keys : list (string * EncryptionKey.t);
  _items : list (string * KeychainItem.t);
  _locked : bool
}.

Definition set_encryption_keys (ks : list (string * EncryptionKey.t))
  (k : t) : t := Make (_path k) ks (_items k) (_locked k).
Definition set_items (its : list (string * KeychainItem.t)) (k : t) : t :=
  Make (_path k) (_encryption_keys k) its (_locked k).
Definition set_locked (b : bool) (k : t) : t :=
  Make (_path k) (_encryption_keys k) (_items k) b.

(** The [locked] property. *)
Definition locked (k : t) : bool := _locked k.
End Keychain.

(** ** Keychain.key *)

(** [self._encryption_keys[identifier]]: the keys of the table are strings,
    so any other hashable value is absent; lists and dictionaries cannot be
    hashed. *)
Definition keys_getitem (d : list (string * EncryptionKey.t)) (k : value)
  : result EncryptionKey.t :=
  match k with
  | VStr s =>
      match dict_lookup s d with
      | Some key => inr key
      | None => inl (KeyError k)
      end
  | VList _ | VDict _ => inl (TypeError "unhashable type")
  | _ => inl (KeyError k)
  end.

(** [key.level == security_level], the level of a key being a string *)
Definition level_eq (k : EncryptionKey.t) (security_level : value) : bool :=
  match security_level with
  | VStr s => (EncryptionKey.level k =? s)%string
  | _ => false
  end.

(** The loop of [key]: the first key of the table, in the order of
    [values()], whose level is the one asked for; [None] when the loop ends
    without returning. *)
Fixpoint key_by_level (ks : list EncryptionKey.t) (security_level : value)
  : option EncryptionKey.t :=
  match ks with
  | [] => None
  | k :: ks' =>
      if level_eq k security_level then Some k
      else key_by_level ks' security_level
  end.

Definition key (kc : Keychain.t) (identifier security_level : value)
  : result (option EncryptionKey.t) :=
  let by_level :=
    if truthy security_level
    then key_by_level (values (Keychain._encryption_keys kc)) security_level
    else None in
  if truthy identifier then
    match keys_getitem (Keychain._encryption_keys kc) identifier with
    | inr k => inr (Some k)
    | inl (KeyError _) => inr by_level
    | inl e => inl e
    end
  else inr by_level.

(** ** Keychain.unlock *)

(** [functools.reduce(function, sequence)] without initial value. *)
Definition reduce {A} (f : A -> A -> A) (l : list A) : result A :=
  match l with
  | [] => inl (TypeError "reduce() of empty sequence with no initial value")
  | x :: xs => inr (fold_left f xs x)
  end.

Section Vault.
Context {env : Collaborators}.

(** [unlocker], applied to the key stored under an entry of the table: the
    key object is updated where it is, the call is recorded, the answer
    returned. *)
Definition unlocker (password : string) (entry : string * EncryptionKey.t)
  : (string * EncryptionKey.t) * event * bool :=
  let (k', b) := key_unlock (snd entry) password in
  ((fst entry, k'),
   EvKeyUnlock (EncryptionKey.identifier (snd entry)) password, b).

(** [map(unlocker, self._encryption_keys.values())]: the table after the
    calls, the calls, the answers.  Python 2 builds the list of answers
    before [reduce] starts; Python 3 makes an iterator, which [reduce] runs
    to its end, taking each answer before it hands it to the function it
    folds with.  So every call is made in both. *)
Fixpoint map_unlocker (password : string)
  (entries : list (string * EncryptionKey.t))
  : list (string * EncryptionKey.t) * list event * list bool :=
  match entries with
  | [] => ([], [], [])
  | entry :: rest =>
      let '(entry', ev, b) := unlocker password entry in
      let '(rest', evs, bs) := map_unlocker password rest in
      (entry' :: rest', ev :: evs, b :: bs)
  end.

(** [lambda x, y: x and y] on booleans *)
Definition py_and (x y : bool) : bool := if x then y else x.

Definition unlock (password : string) : M (heap Keychain.t) bool :=
  fun h =>
    let '(table, evs, unlock_results) :=
      map_unlocker password (Keychain._encryption_keys (this h)) in
    let h1 := Heap (Keychain.set_encryption_keys table (this h))
                   (calls h ++ evs) in
    match reduce py_and unlock_results with
    | inl e => (h1, inl e)
    | inr result =>
        (Heap (Keychain.set_locked (negb result) (this h1)) (calls h1),
         inr result)
    end.

(** ** Keychain._load_encryption_keys *)

(** The loop over [key_data["list"]]: each definition makes a key, stored
    under its identifier. *)
Fixpoint load_key_definitions (defs : list value)
  : M (heap Keychain.t) unit :=
  match defs with
  | [] => ret tt
  | key_definition :: rest =>
      k <- lift (new_key key_definition) ;;
      update (fun kc => Keychain.set_encryption_keys
                (dict_set (EncryptionKey.identifier k) k
                   (Keychain._encryption_keys kc)) kc) ;;;
      load_key_definitions rest
  end.

Definition _load_encryption_keys : M (heap Keychain.t) unit :=
  kc <- self ;;
  let path := os_path_join (Keychain._path kc)
                ["data"; "default"; "encryptionKeys.js"]%string in
  emit (EvOpen path) ;;;
  key_data <- lift (read_json path) ;;
  update (Keychain.set_encryption_keys []) ;;;
  list <- lift (py_getitem key_data "list") ;;
  defs <- lift (py_iter list) ;;
  load_key_definitions defs.

(** ** KeychainItem: lazy loading *)

(** The path of the data file of an item. *)
Definition data_file (i : KeychainItem.t) : string :=
  let filename := (KeychainItem.identifier i ++ ".1password")%string in
  os_path_join (KeychainItem._path i) ["data"; "default"; filename]%string.

Definition _read_data_file : M (heap KeychainItem.t) unit :=
  i <- self ;;
  let path := data_file i in
  emit (EvOpen path) ;;;
  item_data <- lift (read_json path) ;;
  key_id <- lift (py_get item_data "keyID") ;;
  update (KeychainItem.set_key_identifier key_id) ;;;
  sec_level <- lift (py_get item_data "securityLevel") ;;
  update (KeychainItem.set_security_level sec_level) ;;;
  encrypted <- lift (py_getitem item_data "encrypted") ;;
  update (KeychainItem.set_encrypted_json encrypted).

Definition attr_name (a : raw_attr) : string :=
  match a with
  | attr_key_identifier => "_key_identifier"
  | attr_security_level => "_security_level"
  | attr_encrypted_json => "_encrypted_json"
  end.

Definition getattr (a : raw_attr) : M (heap KeychainItem.t) value :=
  i <- self ;;
  match KeychainItem.raw a i with
  | Some v => ret v
  | None => raise (AttributeError "KeychainItem" (attr_name a))
  end.

Definition _lazily_load (a : raw_attr) : M (heap KeychainItem.t) value :=
  i <- self ;;
  match KeychainItem.raw a i with
  | None => _read_data_file
  | Some _ => ret tt
  end ;;;
  getattr a.

Definition key_identifier : M (heap KeychainItem.t) value :=
  _lazily_load attr_key_identifier.

Definition security_level : M (heap KeychainItem.t) value :=
  _lazily_load attr_security_level.

(** ** Field extraction *)

Definition py_lower (v : value) : result string :=
  match v with
  | VStr s => inr (lower s)
  | _ => inl (AttributeError (type_name v) "lower")
  end.

(** [s1 and s2 and s1.lower() == s2.lower()]: the first falsy operand, or
    the comparison. *)
Definition caseequal (s1 s2 : value) : result value :=
  if negb (truthy s1) then inr s1
  else if negb (truthy s2) then inr s2
  else match py_lower s1 with
       | inl e => inl e
       | inr a =>
           match py_lower s2 with
           | inl e => inl e
           | inr b => inr (VBool (a =? b)%string)
           end
       end.

(** The loop of [WebFormKeychainItem._find_field]; falling off its end
    returns [None]. *)
Fixpoint _find_field_loop (fields : list value) (key : string)
  : M (heap KeychainItem.t) value :=
  match fields with
  | [] => ret VNone
  | field :: rest =>
      designation <- lift (py_get field "designation") ;;
      by_designation <- lift (caseequal designation (VStr key)) ;;
      if truthy by_designation then lift (py_getitem field "value")
      else
        (name <- lift (py_get field "name") ;;
         by_name <- lift (caseequal name (VStr key)) ;;
         if truthy by_name then lift (py_getitem field "value")
         else _find_field_loop rest key)
  end.

Definition _find_field (key : string) : M (heap KeychainItem.t) value :=
  i <- self ;;
  fields <- lift (py_getitem (KeychainItem._data i) "fields") ;;
  entries <- lift (py_iter fields) ;;
  _find_field_loop entries key.

(** [len(x)] *)
Definition py_len (x : value) : result Z :=
  match x with
  | VStr s => inr (Z.of_nat (String.length s))
  | VList l => inr (Z.of_nat (List.length l))
  | VDict d => inr (Z.of_nat (List.length d))
  | _ => inl (TypeError "object has no len()")
  end.

(** [x[0]] *)
Definition py_first (x : value) : result value :=
  match x with
  | VList (v :: _) => inr v
  | VList [] => inl (External "IndexError")
  | VStr (String c _) => inr (VStr (String c EmptyString))
  | VStr EmptyString => inl (External "IndexError")
  | VDict _ => inl (KeyError (VInt 0))
  | _ => inl (TypeError "object is not subscriptable")
  end.

Definition WebForm_find_website : M (heap KeychainItem.t) value :=
  i <- self ;;
  urls <- lift (py_get (KeychainItem._data i) "URLs") ;;
  if truthy urls then
    (n <- lift (py_len urls) ;;
     if 0 <? n then
       (first <- lift (py_first urls) ;;
        lift (py_get first "url"))
     else ret VNone)
  else ret VNone.

(** The three extraction methods, dispatched on the class of the item.  The
    base class defines [_find_password] (which raises) and [_find_website]
    (which returns [None]); it has no [_find_username]. *)
Definition _find_password : M (heap KeychainItem.t) value :=
  i <- self ;;
  match KeychainItem.class i with
  | Generic => raise (UnsupportedItemType (KeychainItem._type i))
  | WebForm => _find_field "password"
  | Password => lift (py_get (KeychainItem._data i) "password")
  end.

Definition _find_username : M (heap KeychainItem.t) value :=
  i <- self ;;
  match KeychainItem.class i with
  | Generic => raise (AttributeError "KeychainItem" "_find_username")
  | WebForm => _find_field "username"
  | Password => lift (py_get (KeychainItem._data i) "username")
  end.

Definition _find_website : M (heap KeychainItem.t) value :=
  i <- self ;;
  match KeychainItem.class i with
  | WebForm => WebForm_find_website
  | _ => ret VNone
  end.

(** ** KeychainItem.decrypt_with *)

(** The first part of [decrypt_with], up to and including [json.loads]:
    the key is looked up, the payload decrypted and parsed. *)
Definition decrypt_payload (keychain : Keychain.t)
  : M (heap KeychainItem.t) value :=
  i <- self ;;
  emit (EvDecryptWith (KeychainItem.identifier i)) ;;;
  key_id <- key_identifier ;;
  sec_level <- security_level ;;
  k <- lift (key keychain key_id sec_level) ;;
  _lazily_load attr_encrypted_json ;;;
  decrypted_json <-
    match k with
    | None => raise KeyNotFound
    | Some k =>
        encrypted_json <- getattr attr_encrypted_json ;;
        emit (EvKeyDecrypt (EncryptionKey.identifier k) encrypted_json) ;;;
        lift (key_decrypt k encrypted_json)
    end ;;
  text <-
    match decrypted_json with
    | PBytes b => lift (decode_utf8 b)
    | PText s => ret s
    end ;;
  lift (json_loads text).

Definition decrypt_with (keychain : Keychain.t)
  : M (heap KeychainItem.t) unit :=
  doc <- decrypt_payload keychain ;;
  update (KeychainItem.set_data doc) ;;;
  password <- _find_password ;;
  update (KeychainItem.set_password password) ;;;
  username <- _find_username ;;
  update (KeychainItem.set_username username) ;;;
  website <- _find_website ;;
  update (KeychainItem.set_website website).

(** ** Keychain.item *)

(** A method of the item stored under [exact_name], called from a method of
    the keychain: the item is an object of the table, so what the method
    does to it is seen in the table, also when the method raises. *)
Definition on_item {A} (exact_name : string) (item : KeychainItem.t)
  (m : M (heap KeychainItem.t) A) : M (heap Keychain.t) KeychainItem.t :=
  fun h =>
    let (hi, r) := m (Heap item (calls h)) in
    let kc := Keychain.set_items
                (dict_set exact_name (this hi) (Keychain._items (this h)))
                (this h) in
    (Heap kc (calls hi),
     match r with inl e => inl e | inr _ => inr (this hi) end).

Definition item (name : string) (fuzzy_threshold : Z)
  : M (heap Keychain.t) (option KeychainItem.t) :=
  kc <- self ;;
  let choices := keys (Keychain._items kc) in
  emit (EvExtractOne name choices (fuzzy_threshold - 1)) ;;;
  match extractOne name choices (fuzzy_threshold - 1) with
  | Some (exact_name, _) =>
      match dict_lookup exact_name (Keychain._items kc) with
      | None => raise (KeyError (VStr exact_name))
      | Some item =>
          item <- on_item exact_name item (decrypt_with kc) ;;
          ret (Some item)
      end
  | None => ret None
  end.
End Vault.

(** ** The resolution order of [key], as the specification words it

    An argument is either absent ([None]) or a string.  The identifier wins
    when it is provided and present in the table; otherwise the first key of
    the table with the requested level; otherwise nothing. *)

Definition arg (a : option string) : value :=
  match a with
  | Some s => VStr s
  | None => VNone
  end.

Definition key_as_specified (kc : Keychain.t)
  (identifier security_level : option string) : option EncryptionKey.t :=
  let table := Keychain._encryption_keys kc in
  let by_identifier :=
    match identifier with
    | Some i => dict_lookup i table
    | None => None
    end in
  match by_identifier with
  | Some k => Some k
  | None =>
      match security_level with
      | Some l =>
          find (fun k => (EncryptionKey.level k =? l)%string) (values table)
      | None => None
      end
  end.

(** What [if identifier:] lets through: a string that is not empty. *)
Definition nonempty (a : option string) : option string :=
  match a with
  | Some s => if (s =? "")%string then None else Some s
  | None => None
  end.

(** ** Vocabulary of the statements about items *)

Section Statements.
Context {env : Collaborators}.

(** None of the raw attributes exists: the state [__init__] leaves. *)
Definition not_loaded (i : KeychainItem.t) : Prop :=
  forall a, KeychainItem.raw a i = None.

(** The three raw attributes exist, with these values. *)
Definition loaded_with (i : KeychainItem.t) (key_id sec_level enc : value)
  : Prop :=
  KeychainItem._key_identifier i = Some key_id /\
  KeychainItem._security_level i = Some sec_level /\
  KeychainItem._encrypted_json i = Some enc.

(** The data file of the item is a dictionary with an [encrypted] entry. *)
Definition file_holds (i : KeychainItem.t) (key_id sec_level enc : value)
  : Prop :=
  exists d,
    read_json (data_file i) = inr (VDict d) /\
    py_get (VDict d) "keyID" = inr key_id /\
    py_get (VDict d) "securityLevel" = inr sec_level /\
    dict_lookup "encrypted" d = Some enc.

(** The raw attributes are there, or will be once the file is read. *)
Definition ready (i : KeychainItem.t) (key_id sec_level enc : value)
  : Prop :=
  loaded_with i key_id sec_level enc \/
  (not_loaded i /\ file_holds i key_id sec_level enc).

Definition set_raw (key_id sec_level enc : value) (i : KeychainItem.t)
  : KeychainItem.t :=
  KeychainItem.set_encrypted_json enc
    (KeychainItem.set_security_level sec_level
       (KeychainItem.set_key_identifier key_id i)).

Definition raw_value (a : raw_attr) (key_id sec_level enc : value)
  : value :=
  match a with
  | attr_key_identifier => key_id
  | attr_security_level => sec_level
  | attr_encrypted_json => enc
  end.

(** The reads of the data file that an access to a raw attribute makes. *)
Definition load_events (i : KeychainItem.t) : list event :=
  match KeychainItem._key_identifier i with
  | Some _ => []
  | None => [EvOpen (data_file i)]
  end.

(** Accesses to raw attributes, one after the other. *)
Fixpoint accesses (l : list raw_attr)
  : M (heap KeychainItem.t) (list value) :=
  match l with
  | [] => ret []
  | a :: l' =>
      v <- _lazily_load a ;;
      vs <- accesses l' ;;
      ret (v :: vs)
  end.

(** Everything but the raw attributes is the same in two states of an
    item. *)
Definition same_but_raw (i j : KeychainItem.t) : Prop :=
  KeychainItem.class i = KeychainItem.class j /\
  KeychainItem.identifier i = KeychainItem.identifier j /\
  KeychainItem.name i = KeychainItem.name j /\
  KeychainItem.password i = KeychainItem.password j /\
  KeychainItem.username i = KeychainItem.username j /\
  KeychainItem.website i = KeychainItem.website j /\
  KeychainItem._path i = KeychainItem._path j /\
  KeychainItem._type i = KeychainItem._type j /\
  KeychainItem._data i = KeychainItem._data j.

(** What a method of an item does to the state besides the raw
    attributes: nothing, but calls get recorded. *)
Definition grows (h h' : heap KeychainItem.t) : Prop :=
  same_but_raw (this h) (this h') /\
  exists more, calls h' = calls h ++ more.

(** The extraction methods read the item and change nothing. *)
Definition reads_only {A} (m : M (heap KeychainItem.t) A) : Prop :=
  keeps eq m.

(** The document that decrypting [enc] with the key [k] gives. *)
Definition decrypted_document (k : EncryptionKey.t) (enc : value)
  : result value :=
  match key_decrypt k enc with
  | inl e => inl e
  | inr (PText s) => json_loads s
  | inr (PBytes b) =>
      match decode_utf8 b with
      | inl e => inl e
      | inr s => json_loads s
      end
  end.

(** *** Web form entries, as the specification words the scan *)

(** [v] is a string equal to [key] up to the case of the letters. *)
Definition ci_equal (v : value) (key : string) : bool :=
  match v with
  | VStr s => (lower s =? lower key)%string
  | _ => false
  end.

(** An attribute of an entry, [None] when the entry does not have it. *)
Definition attribute (name : string) (entry : value) : value :=
  match entry with
  | VDict d =>
      match dict_lookup name d with
      | Some v => v
      | None => VNone
      end
  | _ => VNone
  end.

(** The [designation] or the [name] of the entry is the target key. *)
Definition matches (key : string) (entry : value) : bool :=
  (ci_equal (attribute "designation" entry) key
   || ci_equal (attribute "name" entry) key)%bool.

(** An entry of a well-formed document: a dictionary whose [designation]
    and [name], when it has them, are strings or null. *)
Definition text_or_none (v : value) : bool :=
  match v with
  | VStr _ | VNone => true
  | _ => false
  end.

Definition entry_ok (entry : value) : bool :=
  match entry with
  | VDict _ =>
      (text_or_none (attribute "designation" entry)
       && text_or_none (attribute "name" entry))%bool
  | _ => false
  end.

(** The [value] of the first entry whose [designation] or [name] is the
    target key; [None] when no entry has it. *)
Definition first_value (key : string) (fields : list value)
  : result value :=
  match find (matches key) fields with
  | Some entry => py_getitem entry "value"
  | None => inr VNone
  end.

(** The [url] of the first entry of [URLs]; [None] when [URLs] is missing
    or empty. *)
Definition first_url (d : list (string * value)) : value :=
  match dict_lookup "URLs" d with
  | Some (VList (entry :: _)) => attribute "url" entry
  | _ => VNone
  end.

(** [URLs], when the document has it, is a list of dictionaries (only the
    first entry matters) or null. *)
Definition urls_ok (d : list (string * value)) : bool :=
  match dict_lookup "URLs" d with
  | None | Some VNone | Some (VList []) | Some (VList (VDict _ :: _)) => true
  | _ => false
  end.
End Statements.

(** ** A small vault, used in the examples *)

Module Sample.
Import EncryptionKey.

Definition key_A : EncryptionKey.t := Make "A1" "SL5" "blobA" 1000 "hunter2" None.
Definition key_B : EncryptionKey.t := Make "B2" "SL3" "blobB" 1000 "hunter2" None.
Definition key_C : EncryptionKey.t := Make "C3" "SL3" "blobC" 1000 "tr0ub4dor" None.
Definition key_E : EncryptionKey.t := Make "" "SL0" "blobE" 1000 "hunter2" None.
Definition key_F : EncryptionKey.t := Make "F6" "" "blobF" 1000 "hunter2" None.

(** A stand-in for the key derivation: the password is right when it is the
    validation value of the key, and is then the derived key. *)
Definition unlock_key (k : EncryptionKey.t) (password : string)
  : EncryptionKey.t * bool :=
  if (password =? validation k)%string
  then (Make (identifier k) (level k) (data k) (iterations k) (validation k)
             (Some password), true)
  else (Make (identifier k) (level k) (data k) (iterations k) (validation k)
             None, false).

(** A stand-in for the cipher: an unlocked key returns the blob as it is. *)
Definition decrypt_key (k : EncryptionKey.t) (blob : value)
  : result plaintext :=
  match decrypted_key k, blob with
  | Some _, VStr s => inr (PText s)
  | Some _, _ => inl (External "not a string")
  | None, _ => inl (External "key is locked")
  end.

Definition web_document : value :=
  VDict [("fields",
          VList [VDict [("name", VStr "remember"); ("value", VStr "yes")];
                 VDict [("designation", VStr "USERNAME");
                        ("value", VStr "alice")];
                 VDict [("name", VStr "Password");
                        ("value", VStr "s3cret")];
                 VDict [("designation", VStr "username");
                        ("value", VStr "bob")]]);
         ("URLs", VList [VDict [("url", VStr "https://mail.example.org")];
                         VDict [("url", VStr "https://example.org")]])].

(** A web form whose user name entry has no value. *)
Definition broken_document : value :=
  VDict [("fields",
          VList [VDict [("name", VStr "password"); ("value", VStr "p1")];
                 VDict [("name", VStr "username")]])].

Definition login_document : value :=
  VDict [("password", VStr "p1"); ("username", VStr "u1")].

Definition note_document : value := VDict [("notesPlain", VStr "hello")].

Definition parse (text : string) : result value :=
  if (text =? "web")%string then inr web_document
  else if (text =? "broken")%string then inr broken_document
  else if (text =? "login")%string then inr login_document
  else if (text =? "note")%string then inr note_document
  else inl (External "JSONDecodeError").

Definition item_file (key_id : value) (sec_level : value) (payload : string)
  : value :=
  VDict [("keyID", key_id); ("securityLevel", sec_level);
         ("encrypted", VStr payload)].

Definition read (path : string) : result value :=
  if (path =? "/vault/data/default/I1.1password")%string
  then inr (item_file (VStr "A1") (VStr "SL5") "web")
  else if (path =? "/vault/data/default/I2.1password")%string
  then inr (item_file (VStr "B2") (VStr "SL3") "login")
  else if (path =? "/vault/data/default/I3.1password")%string
  then inr (item_file (VStr "A1") (VStr "SL5") "note")
  else if (path =? "/vault/data/default/I4.1password")%string
  then inr (item_file (VStr "Z9") VNone "login")
  else if (path =? "/vault/data/default/I5.1password")%string
  then inr (VDict [("keyID", VStr "A1"); ("securityLevel", VStr "SL5")])
  else if (path =? "/vault/data/default/I6.1password")%string
  then inr (item_file (VStr "A1") (VStr "SL5") "broken")
  else if (path =? "/vault/data/default/I7.1password")%string
  then inr (item_file (VStr "Z9") VNone "note")
  else if (path =? "/vault/data/default/encryptionKeys.js")%string
  then inr (VDict [("list", VList [])])
  else inl (External "FileNotFoundError").

(** A stand-in for the matcher: only an exact match scores, and scores
    100. *)
Definition best_match (query : string) (choices : list string)
  (score_cutoff : Z) : option (string * Z) :=
  if (existsb (String.eqb query) choices && (score_cutoff <=? 100))%bool
  then Some (query, 100) else None.

Definition make_key (key_definition : value) : result EncryptionKey.t :=
  match key_definition with
  | VDict d =>
      match dict_lookup "identifier" d, dict_lookup "level" d with
      | Some (VStr i), Some (VStr l) => inr (Make i l "" 1000 "" None)
      | _, _ => inl (TypeError "missing argument")
      end
  | _ => inl (TypeError "argument after ** must be a mapping")
  end.

Definition env : Collaborators :=
  {| new_key := make_key;
     key_unlock := unlock_key;
     key_decrypt := decrypt_key;
     decode_utf8 := fun _ => inl (External "UnicodeDecodeError");
     json_loads := parse;
     read_json := read;
     extractOne := best_match |}.

Definition gmail : KeychainItem.t :=
  KeychainItem.build "I1" "webforms.WebForm" "gmail" "/vault".
Definition bank : KeychainItem.t :=
  KeychainItem.build "I2" "passwords.Password" "bank" "/vault".
Definition note : KeychainItem.t :=
  KeychainItem.build "I3" "securenotes.SecureNote" "note" "/vault".
Definition orphan : KeychainItem.t :=
  KeychainItem.build "I4" "passwords.Password" "orphan" "/vault".
Definition truncated : KeychainItem.t :=
  KeychainItem.build "I5" "passwords.Password" "truncated" "/vault".
Definition broken : KeychainItem.t :=
  KeychainItem.build "I6" "webforms.WebForm" "broken" "/vault".
Definition lost_note : KeychainItem.t :=
  KeychainItem.build "I7" "securenotes.SecureNote" "lost note" "/vault".

Definition vault : Keychain.t :=
  Keychain.Make "/vault"
    [("C3", key_C); ("A1", key_A); ("B2", key_B)]
    [("gmail", gmail); ("bank", bank); ("note", note); ("orphan", orphan);
     ("truncated", truncated); ("broken", broken);
     ("lost note", lost_note)]
    true.

(** A vault with no key at all, and one with a key whose identifier is the
    empty string and a key whose level is the empty string. *)
Definition empty_vault : Keychain.t := Keychain.Make "/vault" [] [] true.
Definition odd_vault : Keychain.t :=
  Keychain.Make "/vault" [("", key_E); ("B2", key_B); ("F6", key_F)] [] true.

(** The vault after [unlock "hunter2"]: the first key refused the
    password, the other two accepted it, the vault is still locked. *)
Definition half_open_vault : Keychain.t :=
  Eval vm_compute in
    this (fst (unlock (env := env) "hunter2" (Heap vault []))).
End Sample.

(** ** Keychain._load_item_list

    The loop over the rows of the item index.  A row gives the identifier,
    the type and the name of an item in its first three places; they are
    strings here, as [build] takes them, and what a row holds after them is
    not looked at.  Each row makes an item, stored under its name. *)

Fixpoint load_item_definitions (rows : list (string * string * string))
  : M (heap Keychain.t) unit :=
  match rows with
  | [] => ret tt
  | (identifier, type, name) :: rest =>
      kc <- self ;;
      let item :=
        KeychainItem.build identifier type name (Keychain._path kc) in
      update (fun kc => Keychain.set_items
                (dict_set (KeychainItem.name item) item (Keychain._items kc))
                kc) ;;;
      load_item_definitions rest
  end.

(** ** Vocabulary of the further statements *)

(** One step of each loading loop, as a function on the table. *)
Definition add_key (table : list (string * EncryptionKey.t))
  (k : EncryptionKey.t) : list (string * EncryptionKey.t) :=
  dict_set (EncryptionKey.identifier k) k table.

Definition row_name (row : string * string * string) : string := snd row.

Definition row_item (path : string) (row : string * string * string)
  : KeychainItem.t :=
  KeychainItem.build (fst (fst row)) (snd (fst row)) (snd row) path.

Definition add_row (path : string) (items : list (string * KeychainItem.t))
  (row : string * string * string) : list (string * KeychainItem.t) :=
  dict_set (row_name row) (row_item path row) items.

(** Filling a dictionary from a list, one [d[k] = v] per element. *)
Definition fill {X V} (key_of : X -> string) (value_of : X -> V)
  (d : list (string * V)) (xs : list X) : list (string * V) :=
  fold_left (fun d x => dict_set (key_of x) (value_of x) d) xs d.

(** The last element of a list, in the order of the list, that [f] accepts. *)
Definition find_last {A} (f : A -> bool) (l : list A) : option A :=
  find f (rev l).

(** A value that is truthy and cannot be hashed: a list or a dictionary that
    is not empty. *)
Definition unhashable_nonempty (v : value) : bool :=
  match v with
  | VList (_ :: _) | VDict (_ :: _) => true
  | _ => false
  end.



(** Two states of an item with the same class, type and document. *)
Definition same_view (i j : KeychainItem.t) : Prop :=
  KeychainItem.class i = KeychainItem.class j /\
  KeychainItem._type i = KeychainItem._type j /\
  KeychainItem._data i = KeychainItem._data j.

(** The state of an item after a successful [decrypt_with]. *)
Definition decrypted_item (key_id sec_level enc doc password username
                           website : value) (i : KeychainItem.t)
  : KeychainItem.t :=
  KeychainItem.set_website website
    (KeychainItem.set_username username
       (KeychainItem.set_password password
          (KeychainItem.set_data doc (set_raw key_id sec_level enc i)))).

(** ** More of the sample vault *)

Module More.
(** A data file that is not a dictionary, and a key table with two
    definitions for one identifier. *)
Definition read (path : string) : result value :=
  if (path =? "/vault/data/default/L1.1password")%string
  then inr (VList [VStr "A1"; VStr "SL5"])
  else if (path =? "/vault2/data/default/encryptionKeys.js")%string
  then inr (VDict
              [("list",
                VList [VDict [("identifier", VStr "A1"); ("level", VStr "SL5")];
                       VDict [("identifier", VStr "B2"); ("level", VStr "SL3")];
                       VDict [("identifier", VStr "A1");
                              ("level", VStr "SL4")]])])
  else if (path =? "/vault3/data/default/encryptionKeys.js")%string
  then inr (VDict
              [("list",
                VList [VDict [("identifier", VStr "A1"); ("level", VStr "SL5")];
                       VStr "junk";
                       VDict [("identifier", VStr "B2");
                              ("level", VStr "SL3")]])])
  else if (path =? "/vault4/data/default/encryptionKeys.js")%string
  then inr (VDict [("keys", VList [])])
  else Sample.read path.

Definition env : Collaborators :=
  {| new_key := Sample.make_key;
     key_unlock := Sample.unlock_key;
     key_decrypt := Sample.decrypt_key;
     decode_utf8 := fun _ => inl (External "UnicodeDecodeError");
     json_loads := Sample.parse;
     read_json := read;
     extractOne := Sample.best_match |}.

Definition missing : KeychainItem.t :=
  KeychainItem.build "I9" "passwords.Password" "missing" "/vault".
Definition listed : KeychainItem.t :=
  KeychainItem.build "L1" "passwords.Password" "listed" "/vault".
Definition outside : KeychainItem.t :=
  KeychainItem.build "/etc/other" "passwords.Password" "outside" "/vault".

Definition rows : list (string * string * string) :=
  [("I1", "webforms.WebForm", "gmail");
   ("I2", "passwords.Password", "bank");
   ("I8", "securenotes.SecureNote", "gmail")]%string.

Definition vault2 : Keychain.t := Keychain.Make "/vault2" [] [] true.
Definition vault3 : Keychain.t :=
  Keychain.Make "/vault3" [("old", Sample.key_C)] [] true.
Definition vault4 : Keychain.t :=
  Keychain.Make "/vault4" [("old", Sample.key_C)] [] true.
Definition vault9 : Keychain.t :=
  Keychain.Make "/vault9" [("old", Sample.key_C)] [] true.
End More.

(** * Properties *)

Section Properties.
Context {env : Collaborators}.

(** ** unlock *)

Lemma forallb_over_map {A B} (f : B -> bool) (g : A -> B) (l : list A) :
  forallb f (map g l) = forallb (fun a => f (g a)) l.
Proof. induction l as [|a l IH]; simpl; [|rewrite IH]; reflexivity. Qed.

Lemma map_unlocker_eq (password : string)
  (entries : list (string * EncryptionKey.t)) :
  map_unlocker password entries =
    (map (fun e => (fst e, fst (key_unlock (snd e) password))) entries,
     map (fun e => EvKeyUnlock (EncryptionKey.identifier (snd e)) password)
         entries,
     map (fun e => snd (key_unlock (snd e) password)) entries).
Proof.
  induction entries as [|entry rest IH]; simpl; [reflexivity|].
  rewrite IH. unfold unlocker.
  destruct (key_unlock (snd entry) password) as [k' b]. reflexivity.
Qed.

Lemma fold_py_and (bs : list bool) (b : bool) :
  fold_left py_and bs b = (b && forallb (fun x => x) bs)%bool.
Proof.
  revert b. induction bs as [|x bs IH]; intro b; simpl.
  - now rewrite andb_true_r.
  - rewrite IH. destruct b, x; reflexivity.
Qed.

Lemma reduce_py_and (b : bool) (bs : list bool) :
  reduce py_and (b :: bs) = inr (forallb (fun x => x) (b :: bs)).
Proof. simpl. now rewrite fold_py_and. Qed.

(** C1. On a non-empty key table, [unlock] calls [unlock] on every key of
    the table, in the order of the table and whatever the earlier keys
    answered; it returns the conjunction of the answers and sets [_locked]
    to the negation of what it returns. *)
Theorem unlock_attempts_every_key (password : string) (kc : Keychain.t)
  (tr : list event) :
  Keychain._encryption_keys kc <> [] ->
  let table := Keychain._encryption_keys kc in
  let answer :=
    forallb (fun k => snd (key_unlock k password)) (values table) in
  unlock password (Heap kc tr) =
    (Heap (Keychain.Make (Keychain._path kc)
             (map (fun e => (fst e, fst (key_unlock (snd e) password)))
                  table)
             (Keychain._items kc)
             (negb answer))
          (tr ++ map (fun e =>
                        EvKeyUnlock (EncryptionKey.identifier (snd e))
                                    password) table),
     inr answer).
Proof.
  intros Hne table answer. subst table answer.
  unfold unlock. simpl this. simpl calls.
  rewrite map_unlocker_eq.
  destruct (Keychain._encryption_keys kc) as [|entry rest] eqn:E;
    [congruence|].
  cbv zeta.
  set (bs := map (fun e => snd (key_unlock (snd e) password)) (entry :: rest)).
  change bs with (snd (key_unlock (snd entry) password) ::
                  map (fun e => snd (key_unlock (snd e) password)) rest).
  rewrite reduce_py_and.
  unfold values. rewrite forallb_over_map.
  rewrite <- (forallb_over_map (fun x => x)
                (fun e => snd (key_unlock (snd e) password))).
  reflexivity.
Qed.

Lemma unlock_empty_table (password : string) (kc : Keychain.t)
  (tr : list event) :
  Keychain._encryption_keys kc = [] ->
  unlock password (Heap kc tr) =
    (Heap kc tr,
     inl (TypeError "reduce() of empty sequence with no initial value")).
Proof.
  intro E. unfold unlock. simpl this. simpl calls. rewrite E. simpl.
  rewrite app_nil_r. destruct kc as [p ks its l]. simpl in E. subst ks.
  reflexivity.
Qed.

Lemma load_empty_key_list (kc : Keychain.t) (tr : list event)
  (key_data : value) :
  let path := os_path_join (Keychain._path kc)
                ["data"; "default"; "encryptionKeys.js"]%string in
  read_json path = inr key_data ->
  py_getitem key_data "list" = inr (VList []) ->
  _load_encryption_keys (Heap kc tr) =
    (Heap (Keychain.set_encryption_keys [] kc) (tr ++ [EvOpen path]),
     inr tt).
Proof.
  intros path Hread Hlist.
  unfold _load_encryption_keys, bind, self, emit, update, modify, lift.
  cbn [this calls]. fold path. rewrite Hread. cbn [this calls].
  rewrite Hlist. reflexivity.
Qed.

(** C9. On an empty key table [unlock] raises instead of returning a
    boolean: [reduce] has nothing to start from.  Nothing is changed, and
    [_locked] keeps its value.  The table is empty when the [list] of the
    key table document has no entries. *)
Theorem unlock_empty_table_raises (password : string) (kc : Keychain.t)
  (tr : list event) :
  let no_start :=
    TypeError "reduce() of empty sequence with no initial value" in
  (Keychain._encryption_keys kc = [] ->
   unlock password (Heap kc tr) = (Heap kc tr, inl no_start)) /\
  (forall key_data,
     read_json (os_path_join (Keychain._path kc)
                  ["data"; "default"; "encryptionKeys.js"]%string)
       = inr key_data ->
     py_getitem key_data "list" = inr (VList []) ->
     exists h,
       _load_encryption_keys (Heap kc tr) = (h, inr tt) /\
       Keychain._encryption_keys (this h) = [] /\
       unlock password h = (h, inl no_start)).
Proof.
  intro no_start. split.
  - apply unlock_empty_table.
  - intros key_data Hread Hlist.
    eexists. split; [apply (load_empty_key_list kc tr key_data Hread Hlist)|].
    split; [reflexivity|]. now apply unlock_empty_table.
Qed.

(** ** key *)

Lemma key_by_level_find (ks : list EncryptionKey.t) (l : string) :
  key_by_level ks (VStr l) =
    find (fun k => (EncryptionKey.level k =? l)%string) ks.
Proof.
  induction ks as [|k ks IH]; simpl; [reflexivity|].
  rewrite IH. reflexivity.
Qed.

(** C2, amended.  With arguments that are strings or [None], [key] follows
    the order identifier, then level, then [None], an empty string counting
    as an argument that was not given: a non-empty identifier present in
    the table yields its key whatever the level; otherwise a non-empty
    level yields the first key of the table, in insertion order, with that
    level; otherwise [None]. *)
Theorem key_resolution_order (kc : Keychain.t)
  (identifier security_level : option string) :
  key kc (arg identifier) (arg security_level) =
    inr (key_as_specified kc (nonempty identifier)
                             (nonempty security_level)).
Proof.
  unfold key, key_as_specified.
  assert (Hlevel :
    (if truthy (arg security_level)
     then key_by_level (values (Keychain._encryption_keys kc))
                       (arg security_level)
     else None) =
    match nonempty security_level with
    | Some l => find (fun k => (EncryptionKey.level k =? l)%string)
                     (values (Keychain._encryption_keys kc))
    | None => None
    end).
  { destruct security_level as [l|]; simpl; [|reflexivity].
    destruct (l =? "")%string; simpl; [reflexivity|].
    apply key_by_level_find. }
  rewrite Hlevel. clear Hlevel.
  destruct identifier as [i|]; simpl; [|reflexivity].
  destruct (i =? "")%string; simpl; [reflexivity|].
  destruct (dict_lookup i (Keychain._encryption_keys kc)); reflexivity.
Qed.

(** ** Running a method step by step *)

Lemma bind_ok {S A B} (m : M S A) (f : A -> M S B) (s s' : S) (a : A) :
  m s = (s', inr a) -> bind m f s = f a s'.
Proof. intro E. unfold bind. now rewrite E. Qed.

Lemma bind_raise {S A B} (m : M S A) (f : A -> M S B) (s s' : S) (e : exn) :
  m s = (s', inl e) -> bind m f s = (s', inl e).
Proof. intro E. unfold bind. now rewrite E. Qed.

(** A reflexive and transitive relation that every step of a method keeps is
    kept by the method. *)
Section Keeps.
Context {S : Type} (R : S -> S -> Prop).
Hypothesis R_refl : forall s, R s s.
Hypothesis R_trans : forall s1 s2 s3, R s1 s2 -> R s2 s3 -> R s1 s3.

Lemma keeps_ret {A} (a : A) : keeps R (@ret S A a).
Proof. intro s. apply R_refl. Qed.

Lemma keeps_raise {A} (e : exn) : keeps R (@raise S A e).
Proof. intro s. apply R_refl. Qed.

Lemma keeps_lift {A} (r : result A) : keeps R (@lift S A r).
Proof. intro s. apply R_refl. Qed.

Lemma keeps_bind {A B} (m : M S A) (f : A -> M S B) :
  keeps R m -> (forall a, keeps R (f a)) -> keeps R (bind m f).
Proof.
  intros Hm Hf s. unfold bind. specialize (Hm s).
  destruct (m s) as [s' [e|a]]; simpl in *; [assumption|].
  eapply R_trans; [exact Hm|apply Hf].
Qed.
End Keeps.

(** ** Lazy loading *)

Lemma loaded_set_raw (i : KeychainItem.t) (key_id sec_level enc : value) :
  loaded_with i key_id sec_level enc -> set_raw key_id sec_level enc i = i.
Proof.
  destruct i; unfold loaded_with, set_raw; simpl.
  intros (-> & -> & ->). reflexivity.
Qed.

Lemma loaded_set_raw_loaded (i : KeychainItem.t)
  (key_id sec_level enc : value) :
  loaded_with (set_raw key_id sec_level enc i) key_id sec_level enc.
Proof. repeat split. Qed.

Lemma loaded_raw (i : KeychainItem.t) (key_id sec_level enc : value)
  (a : raw_attr) :
  loaded_with i key_id sec_level enc ->
  KeychainItem.raw a i = Some (raw_value a key_id sec_level enc).
Proof. intros (H1 & H2 & H3). destruct a; assumption. Qed.

Lemma lazily_load_loaded (i : KeychainItem.t) (tr : list event)
  (key_id sec_level enc : value) (a : raw_attr) :
  loaded_with i key_id sec_level enc ->
  _lazily_load a (Heap i tr) =
    (Heap i tr, inr (raw_value a key_id sec_level enc)).
Proof.
  intro H. unfold _lazily_load, getattr, bind, self, ret. cbn [this calls].
  rewrite (loaded_raw i key_id sec_level enc a H). cbn [this calls].
  rewrite (loaded_raw i key_id sec_level enc a H). reflexivity.
Qed.

Lemma read_data_file_ok (i : KeychainItem.t) (tr : list event)
  (key_id sec_level enc : value) :
  file_holds i key_id sec_level enc ->
  _read_data_file (Heap i tr) =
    (Heap (set_raw key_id sec_level enc i) (tr ++ [EvOpen (data_file i)]),
     inr tt).
Proof.
  intros (d & Hread & Hk & Hs & He).
  unfold _read_data_file, bind, self, emit, update, modify, lift.
  cbn [this calls]. rewrite Hread. cbn [this calls]. rewrite Hk.
  cbn [this calls]. rewrite Hs. cbn [this calls].
  unfold py_getitem. rewrite He. reflexivity.
Qed.

Lemma lazily_load_ready (i : KeychainItem.t) (tr : list event)
  (key_id sec_level enc : value) (a : raw_attr) :
  ready i key_id sec_level enc ->
  _lazily_load a (Heap i tr) =
    (Heap (set_raw key_id sec_level enc i) (tr ++ load_events i),
     inr (raw_value a key_id sec_level enc)).
Proof.
  intros [H | [Hnot Hfile]].
  - rewrite (lazily_load_loaded i tr key_id sec_level enc a H).
    rewrite (loaded_set_raw i key_id sec_level enc H).
    unfold load_events. destruct H as (-> & _). now rewrite app_nil_r.
  - unfold _lazily_load.
    rewrite (bind_ok _ _ _ _ _ eq_refl : (i0 <- self ;; _) (Heap i tr) = _).
    cbn [this]. rewrite (Hnot a).
    erewrite bind_ok by (apply read_data_file_ok; eassumption).
    unfold load_events.
    pose proof (Hnot attr_key_identifier) as Hk. simpl in Hk. rewrite Hk.
    unfold getattr, bind, self, ret. cbn [this calls].
    rewrite (loaded_raw _ key_id sec_level enc a
               (loaded_set_raw_loaded i key_id sec_level enc)).
    reflexivity.
Qed.

Lemma accesses_loaded (i : KeychainItem.t) (tr : list event)
  (key_id sec_level enc : value) (l : list raw_attr) :
  loaded_with i key_id sec_level enc ->
  accesses l (Heap i tr) =
    (Heap i tr, inr (map (fun a => raw_value a key_id sec_level enc) l)).
Proof.
  intro H. induction l as [|a l IH]; [reflexivity|].
  cbn [accesses map].
  erewrite bind_ok by (apply lazily_load_loaded; exact H).
  erewrite bind_ok by exact IH. reflexivity.
Qed.

(** C8, amended.  When the data file of an item holds a dictionary with an
    [encrypted] entry, the first access to any raw attribute of an item not
    yet loaded reads that file once and sets the three attributes; no
    access made afterwards reads a file or changes the item, and each
    returns the value loaded. *)
Theorem raw_fields_loaded_once (i : KeychainItem.t) (tr : list event)
  (key_id sec_level enc : value) (first : raw_attr)
  (later : list raw_attr) :
  not_loaded i ->
  file_holds i key_id sec_level enc ->
  let i' := set_raw key_id sec_level enc i in
  let tr' := tr ++ [EvOpen (data_file i)] in
  _lazily_load first (Heap i tr) =
    (Heap i' tr', inr (raw_value first key_id sec_level enc)) /\
  loaded_with i' key_id sec_level enc /\
  accesses later (Heap i' tr') =
    (Heap i' tr',
     inr (map (fun a => raw_value a key_id sec_level enc) later)).
Proof.
  intros Hnot Hfile i' tr'. split; [|split].
  - rewrite (lazily_load_ready i tr key_id sec_level enc first)
      by (right; split; assumption).
    unfold load_events.
    pose proof (Hnot attr_key_identifier) as Hk. simpl in Hk. rewrite Hk.
    reflexivity.
  - apply loaded_set_raw_loaded.
  - apply accesses_loaded, loaded_set_raw_loaded.
Qed.

(** ** decrypt_with *)

Lemma decrypt_payload_ready (kc : Keychain.t) (i : KeychainItem.t)
  (tr : list event) (key_id sec_level enc : value) :
  ready i key_id sec_level enc ->
  let i1 := set_raw key_id sec_level enc i in
  let tr1 := tr ++ EvDecryptWith (KeychainItem.identifier i)
                :: load_events i in
  decrypt_payload kc (Heap i tr) =
    match key kc key_id sec_level with
    | inl e => (Heap i1 tr1, inl e)
    | inr None => (Heap i1 tr1, inl KeyNotFound)
    | inr (Some k) =>
        (Heap i1 (tr1 ++ [EvKeyDecrypt (EncryptionKey.identifier k) enc]),
         decrypted_document k enc)
    end.
Proof.
  intros Hready i1 tr1.
  assert (Hloaded : loaded_with i1 key_id sec_level enc)
    by apply loaded_set_raw_loaded.
  unfold decrypt_payload.
  rewrite (bind_ok _ _ _ _ _ eq_refl : (i0 <- self ;; _) (Heap i tr) = _).
  cbn [this].
  rewrite (bind_ok _ _ _ _ _ eq_refl
            : (emit (EvDecryptWith (KeychainItem.identifier i)) ;;; _)
                (Heap i tr) = _).
  cbn [this calls]. unfold key_identifier, security_level.
  erewrite bind_ok by (apply lazily_load_ready; exact Hready).
  fold i1. rewrite <- app_assoc. cbn [app]. fold tr1.
  erewrite bind_ok by (apply lazily_load_loaded; exact Hloaded).
  cbn [raw_value].
  unfold lift at 1. unfold bind at 1.
  destruct (key kc key_id sec_level) as [e|[k|]]; [reflexivity| |].
  - erewrite bind_ok by (apply lazily_load_loaded; exact Hloaded).
    unfold getattr, emit, modify, self, ret, lift, bind, decrypted_document.
    cbn [this calls].
    destruct Hloaded as (_ & _ & He). cbn [KeychainItem.raw]. rewrite He.
    cbn [this calls].
    destruct (key_decrypt k enc) as [e|[t|b]]; [reflexivity| |].
    + destruct (json_loads t); reflexivity.
    + destruct (decode_utf8 b) as [e|t]; [reflexivity|].
      destruct (json_loads t); reflexivity.
  - erewrite bind_ok by (apply lazily_load_loaded; exact Hloaded).
    reflexivity.
Qed.

Lemma grows_refl (h : heap KeychainItem.t) : grows h h.
Proof.
  split; [repeat split|]. exists []. now rewrite app_nil_r.
Qed.

Lemma grows_trans (h1 h2 h3 : heap KeychainItem.t) :
  grows h1 h2 -> grows h2 h3 -> grows h1 h3.
Proof.
  intros [S12 [m1 E1]] [S23 [m2 E2]]. split.
  - unfold same_but_raw in *.
    destruct S12 as (?&?&?&?&?&?&?&?&?), S23 as (?&?&?&?&?&?&?&?&?).
    repeat split; etransitivity; eassumption.
  - exists (m1 ++ m2). rewrite E2, E1. now rewrite app_assoc.
Qed.

Lemma keeps_self : keeps grows (@self KeychainItem.t).
Proof. intro h. apply grows_refl. Qed.

Lemma keeps_emit (e : event) : keeps grows (@emit KeychainItem.t e).
Proof.
  intro h. split; [repeat split|]. exists [e]. reflexivity.
Qed.

Lemma keeps_update_raw (f : KeychainItem.t -> KeychainItem.t) :
  (forall i, same_but_raw i (f i)) -> keeps grows (update f).
Proof.
  intros Hf h. split; [apply Hf|]. exists []. simpl. now rewrite app_nil_r.
Qed.

Ltac keeps_step :=
  first
    [ apply (keeps_bind grows grows_trans); [|intro]
    | apply (keeps_ret grows grows_refl)
    | apply (keeps_raise grows grows_refl)
    | apply (keeps_lift grows grows_refl)
    | apply keeps_self
    | apply keeps_emit
    | apply keeps_update_raw; intro; repeat split
    | match goal with
      | |- keeps _ (match ?x with _ => _ end) => destruct x
      end ].

Lemma keeps_read_data_file : keeps grows _read_data_file.
Proof. unfold _read_data_file. repeat keeps_step. Qed.

Lemma keeps_getattr (a : raw_attr) : keeps grows (getattr a).
Proof. unfold getattr. repeat keeps_step. Qed.

Lemma keeps_lazily_load (a : raw_attr) : keeps grows (_lazily_load a).
Proof.
  unfold _lazily_load.
  repeat first
    [apply keeps_getattr | apply keeps_read_data_file | keeps_step].
Qed.

Lemma keeps_decrypt_payload (kc : Keychain.t) :
  keeps grows (decrypt_payload kc).
Proof.
  unfold decrypt_payload, key_identifier, security_level.
  repeat first [apply keeps_lazily_load | apply keeps_getattr | keeps_step].
Qed.

Ltac reads_step :=
  first
    [ apply (keeps_bind eq (@eq_trans _)); [|intro]
    | apply (keeps_ret eq (@eq_refl _))
    | apply (keeps_raise eq (@eq_refl _))
    | apply (keeps_lift eq (@eq_refl _))
    | (intro; reflexivity)
    | match goal with
      | |- keeps _ (match ?x with _ => _ end) => destruct x
      | |- keeps _ (if ?x then _ else _) => destruct x
      end ].

Lemma reads_only_self : reads_only (@self KeychainItem.t).
Proof. intro h. reflexivity. Qed.

Lemma reads_only_find_field_loop (fields : list value) (key : string) :
  reads_only (_find_field_loop fields key).
Proof.
  unfold reads_only.
  induction fields as [|field rest IH]; cbn [_find_field_loop].
  - reads_step.
  - repeat first [exact IH | reads_step].
Qed.

Lemma reads_only_find_field (key : string) : reads_only (_find_field key).
Proof.
  unfold reads_only, _find_field.
  repeat first
    [apply reads_only_find_field_loop | apply reads_only_self | reads_step].
Qed.

Lemma reads_only_find_password : reads_only _find_password.
Proof.
  unfold reads_only, _find_password.
  repeat first
    [apply reads_only_find_field | apply reads_only_self | reads_step].
Qed.

Lemma reads_only_find_username : reads_only _find_username.
Proof.
  unfold reads_only, _find_username.
  repeat first
    [apply reads_only_find_field | apply reads_only_self | reads_step].
Qed.

Lemma reads_only_find_website : reads_only _find_website.
Proof.
  unfold reads_only, _find_website, WebForm_find_website.
  repeat first [apply reads_only_self | reads_step].
Qed.

Lemma run_reads_only {A} (m : M (heap KeychainItem.t) A)
  (h : heap KeychainItem.t) :
  reads_only m -> m h = (h, snd (m h)).
Proof.
  intro H. specialize (H h). destruct (m h) as [h' r]. simpl in *.
  now subst h'.
Qed.

Ltac run_read lem :=
  match goal with
  | |- context [snd (?m ?h)] =>
      let P := fresh "P" in
      let E := fresh "E" in
      pose proof (lem h) as P;
      destruct (m h) as [h' r] eqn:E;
      cbn [fst] in P; subst h'; cbn [snd]; clear E
  end.

(** [decrypt_with], stage by stage: the payload, then the document stored
    in [_data], then the three extractions, each storing its result before
    the next one runs. *)
Lemma decrypt_with_stages (kc : Keychain.t) (h : heap KeychainItem.t) :
  decrypt_with kc h =
    match decrypt_payload kc h with
    | (h1, inl e) => (h1, inl e)
    | (h1, inr doc) =>
        let tr := calls h1 in
        let i2 := KeychainItem.set_data doc (this h1) in
        match snd (_find_password (Heap i2 tr)) with
        | inl e => (Heap i2 tr, inl e)
        | inr p =>
            let i3 := KeychainItem.set_password p i2 in
            match snd (_find_username (Heap i3 tr)) with
            | inl e => (Heap i3 tr, inl e)
            | inr u =>
                let i4 := KeychainItem.set_username u i3 in
                match snd (_find_website (Heap i4 tr)) with
                | inl e => (Heap i4 tr, inl e)
                | inr w => (Heap (KeychainItem.set_website w i4) tr, inr tt)
                end
            end
        end
    end.
Proof.
  unfold decrypt_with. unfold bind at 1.
  destruct (decrypt_payload kc h) as [h1 [e|doc]]; [reflexivity|].
  cbv zeta.
  rewrite (bind_ok _ _ _ _ _ eq_refl
            : (update (KeychainItem.set_data doc) ;;; _) h1 = _).
  unfold bind at 1. run_read reads_only_find_password.
  destruct r as [e|p]; [reflexivity|].
  rewrite (bind_ok _ _ _ _ _ eq_refl
            : (update (KeychainItem.set_password p) ;;; _) _ = _).
  unfold bind at 1. cbn [this calls]. run_read reads_only_find_username.
  destruct r as [e|u]; [reflexivity|].
  rewrite (bind_ok _ _ _ _ _ eq_refl
            : (update (KeychainItem.set_username u) ;;; _) _ = _).
  unfold bind at 1. cbn [this calls]. run_read reads_only_find_website.
  destruct r as [e|w]; reflexivity.
Qed.

(** The state [decrypt_with] ends in is the one its first part reached,
    with some of [_data], [password], [username] and [website] assigned;
    the calls are those of the first part. *)
Lemma decrypt_with_calls (kc : Keychain.t) (h : heap KeychainItem.t) :
  calls (fst (decrypt_with kc h)) = calls (fst (decrypt_payload kc h)).
Proof.
  rewrite decrypt_with_stages.
  destruct (decrypt_payload kc h) as [h1 [e|doc]]; [reflexivity|].
  cbv zeta.
  destruct (snd (_find_password _)); [reflexivity|].
  destruct (snd (_find_username _)); [reflexivity|].
  destruct (snd (_find_website _)); reflexivity.
Qed.

Lemma decrypt_payload_recorded (kc : Keychain.t) (i : KeychainItem.t)
  (tr : list event) :
  exists more,
    calls (fst (decrypt_payload kc (Heap i tr))) =
      tr ++ EvDecryptWith (KeychainItem.identifier i) :: more.
Proof.
  unfold decrypt_payload.
  rewrite (bind_ok _ _ _ _ _ eq_refl : (i0 <- self ;; _) (Heap i tr) = _).
  cbn [this].
  rewrite (bind_ok _ _ _ _ _ eq_refl
            : (emit (EvDecryptWith (KeychainItem.identifier i)) ;;; _)
                (Heap i tr) = _).
  cbn [this calls].
  match goal with
  | |- exists more, calls (fst (?m ?h)) = _ =>
      assert (K : keeps grows m)
  end.
  { unfold key_identifier, security_level.
    repeat first
      [apply keeps_lazily_load | apply keeps_getattr | keeps_step]. }
  match goal with
  | |- exists more, calls (fst (?m ?h)) = _ =>
      destruct (K h) as [_ [more E]]
  end.
  exists more. rewrite E. cbn [calls]. rewrite <- app_assoc. reflexivity.
Qed.

(** C10, amended.  [decrypt_with] stores the decrypted document in [_data]
    before it extracts anything, and stores each extracted field before it
    extracts the next.  When an extraction raises, [_data] holds the new
    document, the fields extracted before hold their new values, and the
    field whose extraction raised and those after it keep the values they
    had: all three when the password extraction raises, [username] and
    [website] when the user name extraction raises, [website] when the
    website extraction raises. *)
Theorem decrypt_with_stores_document_first (kc : Keychain.t)
  (h h1 : heap KeychainItem.t) (doc : value) :
  decrypt_payload kc h = (h1, inr doc) ->
  let tr := calls h1 in
  let old := this h in
  let i2 := KeychainItem.set_data doc (this h1) in
  (forall e,
     snd (_find_password (Heap i2 tr)) = inl e ->
     decrypt_with kc h = (Heap i2 tr, inl e) /\
     KeychainItem._data i2 = doc /\
     KeychainItem.password i2 = KeychainItem.password old /\
     KeychainItem.username i2 = KeychainItem.username old /\
     KeychainItem.website i2 = KeychainItem.website old) /\
  (forall p e,
     snd (_find_password (Heap i2 tr)) = inr p ->
     let i3 := KeychainItem.set_password p i2 in
     snd (_find_username (Heap i3 tr)) = inl e ->
     decrypt_with kc h = (Heap i3 tr, inl e) /\
     KeychainItem._data i3 = doc /\
     KeychainItem.password i3 = p /\
     KeychainItem.username i3 = KeychainItem.username old /\
     KeychainItem.website i3 = KeychainItem.website old) /\
  (forall p u e,
     snd (_find_password (Heap i2 tr)) = inr p ->
     let i3 := KeychainItem.set_password p i2 in
     snd (_find_username (Heap i3 tr)) = inr u ->
     let i4 := KeychainItem.set_username u i3 in
     snd (_find_website (Heap i4 tr)) = inl e ->
     decrypt_with kc h = (Heap i4 tr, inl e) /\
     KeychainItem._data i4 = doc /\
     KeychainItem.password i4 = p /\
     KeychainItem.username i4 = u /\
     KeychainItem.website i4 = KeychainItem.website old).
Proof.
  intros Hpayload tr old i2.
  pose proof (keeps_decrypt_payload kc h) as [Hsame _].
  rewrite Hpayload in Hsame. cbn [fst] in Hsame. fold old in Hsame.
  destruct Hsame as (_ & _ & _ & Hp & Hu & Hw & _).
  pose proof (decrypt_with_stages kc h) as Hs.
  rewrite Hpayload in Hs. cbv zeta in Hs. fold tr i2 in Hs.
  split; [|split].
  - intros e He. rewrite He in Hs. repeat split; try assumption;
      simpl; symmetry; assumption.
  - intros p e Hpw i3 He. rewrite Hpw in Hs. fold i3 in Hs.
    rewrite He in Hs. repeat split; try assumption;
      simpl; symmetry; assumption.
  - intros p u e Hpw i3 Hun i4 He. rewrite Hpw in Hs. fold i3 in Hs.
    rewrite Hun in Hs. fold i4 in Hs. rewrite He in Hs.
    repeat split; try assumption; simpl; symmetry; assumption.
Qed.

(** A type tag other than those of the two subclasses makes an item of the
    base class, with no decrypted field. *)
Lemma build_generic (identifier type name path : string) :
  type <> "webforms.WebForm"%string ->
  type <> "passwords.Password"%string ->
  type <> "wallet.onlineservices.GenericAccount"%string ->
  let i := KeychainItem.build identifier type name path in
  KeychainItem.class i = Generic /\
  KeychainItem._type i = type /\
  KeychainItem.password i = VNone /\
  KeychainItem.username i = VNone.
Proof.
  intros H1 H2 H3. unfold KeychainItem.build.
  apply String.eqb_neq in H1, H2, H3. rewrite H1, H2, H3.
  repeat split.
Qed.

(** C7.  An item whose type tag is neither the web form tag nor one of the
    password tags is of the base class.  On such an item the password
    extraction always raises [UnsupportedItemType]; [decrypt_with] never
    succeeds on it: it raises the error of its first part (reading,
    looking the key up, decrypting, parsing) when that part fails, and
    [UnsupportedItemType] as soon as the payload was decrypted and parsed;
    in every case [username] and [password] are still [None]. *)
Theorem generic_item_unsupported (kc : Keychain.t) (i : KeychainItem.t)
  (tr : list event) :
  KeychainItem.class i = Generic ->
  KeychainItem.password i = VNone ->
  KeychainItem.username i = VNone ->
  let unsupported := UnsupportedItemType (KeychainItem._type i) in
  let out := decrypt_with kc (Heap i tr) in
  _find_password (Heap i tr) = (Heap i tr, inl unsupported) /\
  match decrypt_payload kc (Heap i tr) with
  | (h1, inl e) => out = (h1, inl e)
  | (h1, inr doc) =>
      out = (Heap (KeychainItem.set_data doc (this h1)) (calls h1),
             inl unsupported)
  end /\
  snd out <> inr tt /\
  KeychainItem.password (this (fst out)) = VNone /\
  KeychainItem.username (this (fst out)) = VNone /\
  (forall identifier type name path,
     type <> "webforms.WebForm"%string ->
     type <> "passwords.Password"%string ->
     type <> "wallet.onlineservices.GenericAccount"%string ->
     let built := KeychainItem.build identifier type name path in
     KeychainItem.class built = Generic /\
     KeychainItem._type built = type /\
     KeychainItem.password built = VNone /\
     KeychainItem.username built = VNone).
Proof.
  intros Hclass Hp Hu unsupported out.
  cut (_find_password (Heap i tr) = (Heap i tr, inl unsupported) /\
       match decrypt_payload kc (Heap i tr) with
       | (h1, inl e) => out = (h1, inl e)
       | (h1, inr doc) =>
           out = (Heap (KeychainItem.set_data doc (this h1)) (calls h1),
                  inl unsupported)
       end /\
       snd out <> inr tt /\
       KeychainItem.password (this (fst out)) = VNone /\
       KeychainItem.username (this (fst out)) = VNone).
  { intros (H1 & H2 & H3 & H4 & H5). repeat (split; [assumption|]).
    intros. now apply build_generic. }
  assert (Hfind : forall j tr',
            KeychainItem.class j = Generic ->
            _find_password (Heap j tr') =
              (Heap j tr', inl (UnsupportedItemType (KeychainItem._type j)))).
  { intros j tr' Hj. unfold _find_password, bind, self. cbn [this].
    rewrite Hj. reflexivity. }
  split; [apply Hfind; assumption|].
  pose proof (keeps_decrypt_payload kc (Heap i tr)) as [Hsame _].
  pose proof (decrypt_with_stages kc (Heap i tr)) as Hs. fold out in Hs.
  destruct (decrypt_payload kc (Heap i tr)) as [h1 [e|doc]].
  - cbn [fst this] in Hsame.
    destruct Hsame as (_ & _ & _ & Hp' & Hu' & _).
    rewrite Hs. cbn [fst snd]. repeat split;
      [discriminate | congruence | congruence].
  - cbn [fst this] in Hsame.
    destruct Hsame as (Hc & _ & _ & Hp' & Hu' & _ & _ & Ht & _).
    cbv zeta in Hs. rewrite Hfind in Hs by (simpl; congruence).
    cbn [snd] in Hs. rewrite Hs. cbn [fst snd this].
    unfold unsupported. repeat split.
    + simpl. now rewrite Ht.
    + discriminate.
    + simpl. congruence.
    + simpl. congruence.
Qed.

(** ** Keychain.item *)

Lemma dict_lookup_set_same {V} (k : string) (v : V)
  (d : list (string * V)) :
  dict_lookup k (dict_set k v d) = Some v.
Proof.
  induction d as [|[k' v'] d IH]; simpl.
  - now rewrite String.eqb_refl.
  - destruct (k' =? k)%string eqn:E; simpl; rewrite E; [reflexivity|exact IH].
Qed.

Lemma dict_lookup_set_other {V} (k other : string) (v : V)
  (d : list (string * V)) :
  other <> k -> dict_lookup other (dict_set k v d) = dict_lookup other d.
Proof.
  intro Hne. induction d as [|[k' v'] d IH]; simpl.
  - destruct (k =? other)%string eqn:E; [|reflexivity].
    apply String.eqb_eq in E. congruence.
  - destruct (k' =? k)%string eqn:E; simpl.
    + apply String.eqb_eq in E. subst k'.
      destruct (k =? other)%string eqn:E'; [|reflexivity].
      apply String.eqb_eq in E'. congruence.
    + now rewrite IH.
Qed.

(** [item] when the matcher names a stored item: [decrypt_with] runs on
    that item, which stays where it is in the table. *)
Lemma item_found (name : string) (fuzzy_threshold : Z) (kc : Keychain.t)
  (tr : list event) (exact_name : string) (score : Z)
  (stored : KeychainItem.t) :
  let choices := keys (Keychain._items kc) in
  let asked := EvExtractOne name choices (fuzzy_threshold - 1) in
  extractOne name choices (fuzzy_threshold - 1) = Some (exact_name, score) ->
  dict_lookup exact_name (Keychain._items kc) = Some stored ->
  let run := decrypt_with kc (Heap stored (tr ++ [asked])) in
  item name fuzzy_threshold (Heap kc tr) =
    (Heap (Keychain.set_items
             (dict_set exact_name (this (fst run)) (Keychain._items kc)) kc)
          (calls (fst run)),
     match snd run with
     | inl e => inl e
     | inr _ => inr (Some (this (fst run)))
     end).
Proof.
  intros choices asked Hmatch Hstored run.
  unfold item, bind, self, emit, modify, ret. cbn [this calls].
  fold choices. rewrite Hmatch, Hstored.
  unfold on_item. cbn [this calls]. fold asked. fold run.
  destruct run as [hi [e|u]]; reflexivity.
Qed.

Lemma item_no_match (name : string) (fuzzy_threshold : Z) (kc : Keychain.t)
  (tr : list event) :
  let choices := keys (Keychain._items kc) in
  extractOne name choices (fuzzy_threshold - 1) = None ->
  item name fuzzy_threshold (Heap kc tr) =
    (Heap kc (tr ++ [EvExtractOne name choices (fuzzy_threshold - 1)]),
     inr None).
Proof.
  intros choices Hmatch.
  unfold item, bind, self, emit, modify, ret. cbn [this calls].
  fold choices. rewrite Hmatch. reflexivity.
Qed.

Lemma item_not_stored (name : string) (fuzzy_threshold : Z)
  (kc : Keychain.t) (tr : list event) (exact_name : string) (score : Z) :
  let choices := keys (Keychain._items kc) in
  extractOne name choices (fuzzy_threshold - 1) = Some (exact_name, score) ->
  dict_lookup exact_name (Keychain._items kc) = None ->
  item name fuzzy_threshold (Heap kc tr) =
    (Heap kc (tr ++ [EvExtractOne name choices (fuzzy_threshold - 1)]),
     inl (KeyError (VStr exact_name))).
Proof.
  intros choices Hmatch Hstored.
  unfold item, bind, self, emit, modify, raise. cbn [this calls].
  fold choices. rewrite Hmatch, Hstored. reflexivity.
Qed.

Lemma decrypt_with_recorded (kc : Keychain.t) (i : KeychainItem.t)
  (tr : list event) :
  exists more,
    calls (fst (decrypt_with kc (Heap i tr))) =
      tr ++ EvDecryptWith (KeychainItem.identifier i) :: more.
Proof. rewrite decrypt_with_calls. apply decrypt_payload_recorded. Qed.

(** C3.  [item] asks the matcher once it is called, for [name] among the
    names of the items of the table and with [fuzzy_threshold - 1] as the
    least score.  It returns [None] exactly when the matcher has no
    candidate.  When the matcher names a stored item, [decrypt_with] is
    called on that item, and [item] returns it, as it is stored under the
    matched name, when [decrypt_with] returns; an exception of
    [decrypt_with] is an exception of [item]. *)
Theorem item_delegates_to_matcher (name : string) (fuzzy_threshold : Z)
  (kc : Keychain.t) (tr : list event) :
  let choices := keys (Keychain._items kc) in
  let asked := EvExtractOne name choices (fuzzy_threshold - 1) in
  let out := item name fuzzy_threshold (Heap kc tr) in
  (exists more, calls (fst out) = tr ++ asked :: more) /\
  (snd out = inr None <->
   extractOne name choices (fuzzy_threshold - 1) = None) /\
  (forall exact_name score stored,
     extractOne name choices (fuzzy_threshold - 1)
       = Some (exact_name, score) ->
     dict_lookup exact_name (Keychain._items kc) = Some stored ->
     let run := decrypt_with kc (Heap stored (tr ++ [asked])) in
     let decrypted := this (fst run) in
     In (EvDecryptWith (KeychainItem.identifier stored)) (calls (fst out)) /\
     dict_lookup exact_name (Keychain._items (this (fst out)))
       = Some decrypted /\
     snd out = match snd run with
               | inl e => inl e
               | inr _ => inr (Some decrypted)
               end).
Proof.
  intros choices asked out.
  destruct (extractOne name choices (fuzzy_threshold - 1))
    as [[exact_name score]|] eqn:Hmatch.
  - destruct (dict_lookup exact_name (Keychain._items kc))
      as [stored|] eqn:Hstored.
    + pose proof (item_found name fuzzy_threshold kc tr exact_name score
                    stored Hmatch Hstored) as Hrun.
      cbv zeta in Hrun. fold choices asked out in Hrun.
      destruct (decrypt_with_recorded kc stored (tr ++ [asked]))
        as [more Hmore].
      split; [|split].
      * exists (EvDecryptWith (KeychainItem.identifier stored) :: more).
        rewrite Hrun. cbn [fst calls]. rewrite Hmore.
        now rewrite <- app_assoc.
      * rewrite Hrun. cbn [snd].
        destruct (snd (decrypt_with kc (Heap stored (tr ++ [asked]))));
          split; discriminate.
      * intros exact_name' score' stored' Heq Hstored'.
        injection Heq as <- <-. rewrite Hstored in Hstored'.
        injection Hstored' as <-.
        cbv zeta. rewrite Hrun. cbn [fst snd this calls].
        split; [|split].
        -- rewrite Hmore. apply in_or_app. right. now left.
        -- apply dict_lookup_set_same.
        -- reflexivity.
    + pose proof (item_not_stored name fuzzy_threshold kc tr exact_name
                    score Hmatch Hstored) as Hrun.
      cbv zeta in Hrun. fold choices asked out in Hrun.
      rewrite Hrun. cbn [fst snd calls]. split; [|split].
      * now exists [].
      * split; discriminate.
      * intros exact_name' score' stored' Heq Hstored'.
        injection Heq as <- <-. congruence.
  - pose proof (item_no_match name fuzzy_threshold kc tr Hmatch) as Hrun.
    cbv zeta in Hrun. fold choices asked out in Hrun.
    rewrite Hrun. cbn [fst snd calls]. split; [|split].
    + now exists [].
    + split; reflexivity.
    + intros; discriminate.
Qed.

(** C4.  Whatever the value of [_locked], when the matcher names a stored
    item [item] calls [decrypt_with] on it, with the same outcome: the flag
    is not read, and the attempt is made on a locked keychain as well. *)
Theorem item_ignores_lock (name : string) (fuzzy_threshold : Z)
  (kc : Keychain.t) (tr : list event) (exact_name : string) (score : Z)
  (stored : KeychainItem.t) (locked : bool) :
  let choices := keys (Keychain._items kc) in
  let asked := EvExtractOne name choices (fuzzy_threshold - 1) in
  extractOne name choices (fuzzy_threshold - 1) = Some (exact_name, score) ->
  dict_lookup exact_name (Keychain._items kc) = Some stored ->
  let out := item name fuzzy_threshold (Heap (Keychain.set_locked locked kc) tr) in
  let run := decrypt_with kc (Heap stored (tr ++ [asked])) in
  Keychain.locked (this (fst out)) = locked /\
  In (EvDecryptWith (KeychainItem.identifier stored)) (calls (fst out)) /\
  out =
    (Heap (Keychain.set_locked locked
             (Keychain.set_items
                (dict_set exact_name (this (fst run)) (Keychain._items kc))
                kc))
          (calls (fst run)),
     match snd run with
     | inl e => inl e
     | inr _ => inr (Some (this (fst run)))
     end).
Proof.
  intros choices asked Hmatch Hstored out run.
  pose proof (item_found name fuzzy_threshold (Keychain.set_locked locked kc)
                tr exact_name score stored Hmatch Hstored) as Hrun.
  cbv zeta in Hrun.
  change (decrypt_with (Keychain.set_locked locked kc)) with (decrypt_with kc)
    in Hrun.
  change (keys (Keychain._items (Keychain.set_locked locked kc)))
    with choices in Hrun.
  fold asked run out in Hrun.
  destruct (decrypt_with_recorded kc stored (tr ++ [asked])) as [more Hmore].
  fold run in Hmore.
  rewrite Hrun. cbn [fst snd this calls]. split; [reflexivity|].
  split; [|reflexivity].
  rewrite Hmore. apply in_or_app. right. now left.
Qed.

(** C5.  When the key identifier and the security level of an item (loaded
    already, or read from a well-formed data file) resolve to no key,
    [decrypt_with] raises [KeyNotFound].  The item has its raw attributes
    and nothing else changed, no key is asked to decrypt, and, seen from
    [item], the key table, the lock and every other item are as before. *)
Theorem decrypt_with_key_not_found (kc : Keychain.t) (i : KeychainItem.t)
  (tr : list event) (key_id sec_level enc : value) :
  ready i key_id sec_level enc ->
  key kc key_id sec_level = inr None ->
  let i1 := set_raw key_id sec_level enc i in
  decrypt_with kc (Heap i tr) =
    (Heap i1 (tr ++ EvDecryptWith (KeychainItem.identifier i)
                 :: load_events i),
     inl KeyNotFound) /\
  same_but_raw i i1 /\
  (forall name fuzzy_threshold exact_name score,
     extractOne name (keys (Keychain._items kc)) (fuzzy_threshold - 1)
       = Some (exact_name, score) ->
     dict_lookup exact_name (Keychain._items kc) = Some i ->
     let out := item name fuzzy_threshold (Heap kc tr) in
     snd out = inl KeyNotFound /\
     Keychain._encryption_keys (this (fst out))
       = Keychain._encryption_keys kc /\
     Keychain._locked (this (fst out)) = Keychain._locked kc /\
     dict_lookup exact_name (Keychain._items (this (fst out))) = Some i1 /\
     forall other,
       other <> exact_name ->
       dict_lookup other (Keychain._items (this (fst out)))
         = dict_lookup other (Keychain._items kc)).
Proof.
  intros Hready Hkey i1.
  assert (Hrun : forall tr',
            decrypt_with kc (Heap i tr') =
              (Heap i1 (tr' ++ EvDecryptWith (KeychainItem.identifier i)
                            :: load_events i),
               inl KeyNotFound)).
  { intro tr'. rewrite decrypt_with_stages.
    rewrite (decrypt_payload_ready kc i tr' key_id sec_level enc Hready).
    rewrite Hkey. reflexivity. }
  split; [apply Hrun|]. split; [repeat split|].
  intros name fuzzy_threshold exact_name score Hmatch Hstored out.
  pose proof (item_found name fuzzy_threshold kc tr exact_name score i
                Hmatch Hstored) as Hitem.
  cbv zeta in Hitem. rewrite Hrun in Hitem. cbn [fst snd this calls] in Hitem.
  subst out. rewrite Hitem. cbn [fst snd this calls].
  repeat split.
  - apply dict_lookup_set_same.
  - intros other Hother. now apply dict_lookup_set_other.
Qed.

(** ** Web forms *)

(** On a string or [None], and for a key that is not empty, [caseequal]
    is truthy exactly when the two are equal up to case. *)
Lemma caseequal_ci_equal (v : value) (key : string) :
  key <> ""%string ->
  text_or_none v = true ->
  exists c, caseequal v (VStr key) = inr c /\ truthy c = ci_equal v key.
Proof.
  intros Hkey Hv. apply String.eqb_neq in Hkey.
  destruct v as [| | |s| |]; try discriminate.
  - exists VNone. split; reflexivity.
  - unfold caseequal. cbn [truthy].
    destruct (s =? "")%string eqn:Es; cbn [negb].
    + exists (VStr s). split; [reflexivity|]. cbn [truthy ci_equal].
      rewrite Es. cbn [negb]. apply String.eqb_eq in Es. subst s.
      destruct key; [discriminate Hkey|reflexivity].
    + rewrite Hkey. cbn [negb py_lower].
      exists (VBool (lower s =? lower key)%string). split; reflexivity.
Qed.

Lemma find_field_loop_first_value (fields : list value) (key : string)
  (h : heap KeychainItem.t) :
  key <> ""%string ->
  forallb entry_ok fields = true ->
  _find_field_loop fields key h = (h, first_value key fields).
Proof.
  intros Hkey. induction fields as [|entry rest IH]; intro Hok.
  - reflexivity.
  - cbn [forallb] in Hok. apply andb_true_iff in Hok as [Hentry Hrest].
    specialize (IH Hrest).
    destruct entry as [| | | | |d]; try discriminate.
    cbn [entry_ok] in Hentry. apply andb_true_iff in Hentry as [Hd Hn].
    destruct (caseequal_ci_equal _ key Hkey Hd) as (c1 & Hc1 & Ht1).
    destruct (caseequal_ci_equal _ key Hkey Hn) as (c2 & Hc2 & Ht2).
    cbn [_find_field_loop]. unfold first_value. cbn [find]. unfold matches.
    unfold lift, bind. cbn [py_get].
    change (match dict_lookup "designation" d with
            | Some v => v | None => VNone end)
      with (attribute "designation" (VDict d)).
    change (match dict_lookup "name" d with
            | Some v => v | None => VNone end)
      with (attribute "name" (VDict d)).
    rewrite Hc1, Ht1.
    destruct (ci_equal (attribute "designation" (VDict d)) key);
      cbn [orb]; [reflexivity|].
    rewrite Hc2, Ht2.
    destruct (ci_equal (attribute "name" (VDict d)) key); [reflexivity|].
    exact IH.
Qed.

(** C6.  On a web form item whose decrypted document is a dictionary:
    when [fields] is a list of well-formed entries, the password and the
    user name extracted are the [value] of the first entry whose
    [designation] or [name] is "password", respectively "username", up
    to case ([None] when there is no such entry); the website extracted is
    the [url] of the first entry of [URLs], and [None] when [URLs] is
    missing or empty. *)
Theorem webform_extraction (i : KeychainItem.t) (tr : list event)
  (d : list (string * value)) :
  KeychainItem.class i = WebForm ->
  KeychainItem._data i = VDict d ->
  (forall fields,
     dict_lookup "fields" d = Some (VList fields) ->
     forallb entry_ok fields = true ->
     _find_password (Heap i tr) =
       (Heap i tr, first_value "password" fields) /\
     _find_username (Heap i tr) =
       (Heap i tr, first_value "username" fields)) /\
  (urls_ok d = true ->
   _find_website (Heap i tr) = (Heap i tr, inr (first_url d))) /\
  (dict_lookup "URLs" d = None \/ dict_lookup "URLs" d = Some (VList []) ->
   _find_website (Heap i tr) = (Heap i tr, inr VNone)).
Proof.
  intros Hclass Hdata.
  assert (Hweb : urls_ok d = true ->
                 _find_website (Heap i tr) = (Heap i tr, inr (first_url d))).
  { intro Hurls.
    unfold _find_website, WebForm_find_website, bind, self, lift, ret.
    cbn [this]. rewrite Hclass. cbn [this]. rewrite Hdata.
    unfold urls_ok in Hurls. unfold first_url. cbn [py_get].
    destruct (dict_lookup "URLs" d) as [[| | | |[|[| | | | |u] rest]|]|];
      try discriminate; reflexivity. }
  split; [|split].
  - intros fields Hfields Hok.
    assert (Hfind : forall key, key <> ""%string ->
              _find_field key (Heap i tr) =
                (Heap i tr, first_value key fields)).
    { intros key Hkey. unfold _find_field.
      rewrite (bind_ok _ _ _ _ _ eq_refl
                : (i0 <- self ;; _) (Heap i tr) = _).
      cbn [this]. rewrite Hdata. cbn [py_getitem]. rewrite Hfields.
      unfold lift at 1 2. unfold bind at 1 2. cbn [py_iter].
      now apply find_field_loop_first_value. }
    unfold _find_password, _find_username, bind, self. cbn [this].
    rewrite Hclass. split; apply Hfind; discriminate.
  - exact Hweb.
  - intros Hurls. rewrite Hweb.
    + unfold first_url. destruct Hurls as [-> | ->]; reflexivity.
    + unfold urls_ok. destruct Hurls as [-> | ->]; reflexivity.
Qed.
End Properties.

(** * Examples on the sample vault *)

Lemma unlock_attempts_every_key_witness :
  Keychain._encryption_keys Sample.vault <> [] /\
  unlock (env := Sample.env) "hunter2" (Heap Sample.vault []) =
    (Heap Sample.half_open_vault
          [EvKeyUnlock "C3" "hunter2"; EvKeyUnlock "A1" "hunter2";
           EvKeyUnlock "B2" "hunter2"],
     inr false) /\
  Keychain.locked Sample.half_open_vault = true /\
  map (fun e => EncryptionKey.decrypted_key (snd e))
      (Keychain._encryption_keys Sample.half_open_vault)
    = [None; Some "hunter2"; Some "hunter2"]%string.
Proof.
  assert (H : Keychain._encryption_keys Sample.vault <> []) by discriminate.
  split; [exact H|]. split; [|split; reflexivity].
  exact (unlock_attempts_every_key (env := Sample.env) "hunter2"
           Sample.vault [] H).
Defined.

Lemma unlock_empty_table_raises_witness :
  Keychain._encryption_keys Sample.empty_vault = [] /\
  unlock (env := Sample.env) "hunter2" (Heap Sample.empty_vault []) =
    (Heap Sample.empty_vault [],
     inl (TypeError "reduce() of empty sequence with no initial value")) /\
  exists h,
    _load_encryption_keys (env := Sample.env) (Heap Sample.vault []) =
      (h, inr tt) /\
    Keychain._encryption_keys (this h) = [] /\
    unlock (env := Sample.env) "hunter2" h =
      (h, inl (TypeError "reduce() of empty sequence with no initial value")).
Proof.
  split; [reflexivity|]. split.
  - exact (proj1 (unlock_empty_table_raises (env := Sample.env) "hunter2"
                    Sample.empty_vault []) eq_refl).
  - exact (proj2 (unlock_empty_table_raises (env := Sample.env) "hunter2"
                    Sample.vault [])
             (VDict [("list", VList [])]) eq_refl eq_refl).
Defined.

(** C2, as stated, fails on an identifier that is the empty string: the
    table has a key under it, yet [key] goes on to the security level.  It
    fails on a security level that is the empty string as well: a key has
    that level, yet [key] returns [None]. *)
Lemma key_skips_empty_identifier :
  dict_lookup "" (Keychain._encryption_keys Sample.odd_vault)
    = Some Sample.key_E /\
  key_as_specified Sample.odd_vault (Some "") (Some "SL3")
    = Some Sample.key_E /\
  key Sample.odd_vault (arg (Some "")) (arg (Some "SL3"))
    = inr (Some Sample.key_B) /\
  key Sample.odd_vault (arg (Some "")) (arg None) = inr None /\
  key Sample.odd_vault (arg (Some "")) (arg (Some "SL3"))
    <> inr (key_as_specified Sample.odd_vault (Some "") (Some "SL3")) /\
  key_as_specified Sample.odd_vault None (Some "") = Some Sample.key_F /\
  key Sample.odd_vault (arg None) (arg (Some "")) = inr None.
Proof. repeat split. discriminate. Qed.

Lemma item_delegates_to_matcher_witness :
  let out := item (env := Sample.env) "gmail" 100
               (Heap Sample.half_open_vault []) in
  extractOne (Collaborators := Sample.env) "gmail"
    (keys (Keychain._items Sample.half_open_vault)) (100 - 1)
    = Some ("gmail", 100) /\
  dict_lookup "gmail" (Keychain._items Sample.half_open_vault)
    = Some Sample.gmail /\
  In (EvDecryptWith "I1") (calls (fst out)) /\
  (exists decrypted,
     snd out = inr (Some decrypted) /\
     dict_lookup "gmail" (Keychain._items (this (fst out))) = Some decrypted /\
     KeychainItem.username decrypted = VStr "alice" /\
     KeychainItem.password decrypted = VStr "s3cret" /\
     KeychainItem.website decrypted = VStr "https://mail.example.org") /\
  snd (item (env := Sample.env) "gmai" 100 (Heap Sample.half_open_vault []))
    = inr None.
Proof.
  intro out.
  pose proof (item_delegates_to_matcher (env := Sample.env) "gmail" 100
                Sample.half_open_vault []) as (_ & _ & H).
  specialize (H "gmail"%string 100 Sample.gmail eq_refl eq_refl).
  cbv zeta in H. destruct H as (Hcall & Hstored & Hout).
  split; [reflexivity|]. split; [reflexivity|]. split; [exact Hcall|].
  split; [|reflexivity].
  eexists. split; [exact Hout|]. split; [exact Hstored|].
  repeat split.
Defined.

Lemma item_ignores_lock_witness :
  let out := item (env := Sample.env) "gmail" 100
               (Heap Sample.half_open_vault []) in
  Keychain.locked Sample.half_open_vault = true /\
  Keychain.locked (this (fst out)) = true /\
  In (EvDecryptWith "I1") (calls (fst out)) /\
  exists decrypted,
    snd out = inr (Some decrypted) /\
    KeychainItem.password decrypted = VStr "s3cret".
Proof.
  intro out.
  pose proof (item_ignores_lock (env := Sample.env) "gmail" 100
                Sample.half_open_vault [] "gmail" 100 Sample.gmail true
                eq_refl eq_refl) as (Hlock & Hcall & Hout).
  split; [reflexivity|]. split; [exact Hlock|]. split; [exact Hcall|].
  eexists. split; [exact (f_equal snd Hout)|]. reflexivity.
Defined.

Lemma decrypt_with_key_not_found_witness :
  let out := item (env := Sample.env) "orphan" 100
               (Heap Sample.half_open_vault []) in
  ready (env := Sample.env) Sample.orphan (VStr "Z9") VNone (VStr "login") /\
  key Sample.half_open_vault (VStr "Z9") VNone = inr None /\
  decrypt_with (env := Sample.env) Sample.half_open_vault
    (Heap Sample.orphan []) =
    (Heap (set_raw (VStr "Z9") VNone (VStr "login") Sample.orphan)
          [EvDecryptWith "I4"; EvOpen "/vault/data/default/I4.1password"],
     inl KeyNotFound) /\
  snd out = inl KeyNotFound /\
  Keychain._encryption_keys (this (fst out))
    = Keychain._encryption_keys Sample.half_open_vault /\
  dict_lookup "gmail" (Keychain._items (this (fst out))) = Some Sample.gmail.
Proof.
  intro out.
  assert (Hready : ready (env := Sample.env) Sample.orphan
                     (VStr "Z9") VNone (VStr "login")).
  { right. split.
    - intros [| |]; reflexivity.
    - eexists. repeat split; reflexivity. }
  pose proof (decrypt_with_key_not_found (env := Sample.env)
                Sample.half_open_vault Sample.orphan []
                (VStr "Z9") VNone (VStr "login") Hready eq_refl)
    as (Hrun & _ & Hitem).
  specialize (Hitem "orphan"%string 100 "orphan"%string 100 eq_refl eq_refl).
  cbv zeta in Hitem. destruct Hitem as (Herr & Hkeys & _ & _ & Hothers).
  split; [exact Hready|]. split; [reflexivity|]. split; [exact Hrun|].
  split; [exact Herr|]. split; [exact Hkeys|].
  subst out. rewrite (Hothers "gmail"%string) by discriminate. reflexivity.
Defined.

Lemma webform_extraction_witness :
  let i := KeychainItem.set_data Sample.web_document Sample.gmail in
  KeychainItem.class i = WebForm /\
  snd (_find_username (Heap i [])) = inr (VStr "alice") /\
  snd (_find_password (Heap i [])) = inr (VStr "s3cret") /\
  snd (_find_website (Heap i [])) = inr (VStr "https://mail.example.org").
Proof.
  intro i.
  pose proof (webform_extraction i []
                (match Sample.web_document with VDict d => d | _ => [] end)
                eq_refl eq_refl) as (Hfields & Hurl & _).
  specialize (Hfields _ eq_refl eq_refl). destruct Hfields as (Hp & Hu).
  specialize (Hurl eq_refl).
  split; [reflexivity|].
  split; [exact (f_equal snd Hu)|].
  split; [exact (f_equal snd Hp)|exact (f_equal snd Hurl)].
Defined.

Lemma generic_item_unsupported_witness :
  let out := decrypt_with (env := Sample.env) Sample.half_open_vault
               (Heap Sample.note []) in
  KeychainItem.class Sample.note = Generic /\
  snd out =
    inl (UnsupportedItemType "securenotes.SecureNote") /\
  KeychainItem._data (this (fst out)) = Sample.note_document /\
  KeychainItem.password (this (fst out)) = VNone /\
  KeychainItem.username (this (fst out)) = VNone.
Proof.
  intro out.
  pose proof (generic_item_unsupported (env := Sample.env)
                Sample.half_open_vault Sample.note [] eq_refl eq_refl eq_refl)
    as (_ & Hout & _ & Hp & Hu & _).
  cbv zeta in Hout.
  change (decrypt_payload (env := Sample.env) Sample.half_open_vault
            (Heap Sample.note []))
    with (Heap (set_raw (VStr "A1") (VStr "SL5") (VStr "note") Sample.note)
               [EvDecryptWith "I3";
                EvOpen "/vault/data/default/I3.1password";
                EvKeyDecrypt "A1" (VStr "note")],
          @inr exn value Sample.note_document) in Hout.
  cbv beta iota in Hout.
  split; [reflexivity|].
  split; [exact (f_equal snd Hout)|].
  split; [exact (f_equal (fun o => KeychainItem._data (this (fst o))) Hout)|].
  split; [exact Hp|exact Hu].
Defined.

Lemma raw_fields_loaded_once_witness :
  not_loaded Sample.gmail /\
  file_holds (env := Sample.env) Sample.gmail
    (VStr "A1") (VStr "SL5") (VStr "web") /\
  (security_level (env := Sample.env) ;;;
   accesses (env := Sample.env)
     [attr_encrypted_json; attr_key_identifier; attr_security_level])
    (Heap Sample.gmail []) =
    (Heap (set_raw (VStr "A1") (VStr "SL5") (VStr "web") Sample.gmail)
          [EvOpen "/vault/data/default/I1.1password"],
     inr [VStr "web"; VStr "A1"; VStr "SL5"]).
Proof.
  assert (Hnot : not_loaded Sample.gmail) by (intros [| |]; reflexivity).
  assert (Hfile : file_holds (env := Sample.env) Sample.gmail
                    (VStr "A1") (VStr "SL5") (VStr "web"))
    by (eexists; repeat split; reflexivity).
  split; [exact Hnot|]. split; [exact Hfile|].
  pose proof (raw_fields_loaded_once (env := Sample.env) Sample.gmail []
                (VStr "A1") (VStr "SL5") (VStr "web") attr_security_level
                [attr_encrypted_json; attr_key_identifier;
                 attr_security_level] Hnot Hfile) as (Hfirst & _ & Hlater).
  unfold security_level, bind. rewrite Hfirst. exact Hlater.
Defined.

(** C8, as stated, fails on a data file without [encrypted] entry: the first
    access raises after two of the three attributes were set, and a later
    access to the third reads the file again. *)
Lemma partial_load_counterexample :
  let first := _lazily_load (env := Sample.env) attr_key_identifier
                 (Heap Sample.truncated []) in
  let i1 := this (fst first) in
  let second := _lazily_load (env := Sample.env) attr_security_level
                  (fst first) in
  let third := _lazily_load (env := Sample.env) attr_encrypted_json
                 (fst second) in
  not_loaded Sample.truncated /\
  snd first = inl (KeyError (VStr "encrypted")) /\
  KeychainItem._key_identifier i1 = Some (VStr "A1") /\
  KeychainItem._security_level i1 = Some (VStr "SL5") /\
  KeychainItem._encrypted_json i1 = None /\
  second = (fst first, inr (VStr "SL5")) /\
  snd third = inl (KeyError (VStr "encrypted")) /\
  calls (fst third) =
    [EvOpen "/vault/data/default/I5.1password";
     EvOpen "/vault/data/default/I5.1password"].
Proof.
  cbv zeta. split; [intros [| |]; reflexivity|]. repeat split.
Qed.

Lemma decrypt_with_stores_document_first_witness :
  let h := Heap Sample.note [] in
  let out := decrypt_with (env := Sample.env) Sample.half_open_vault h in
  fst (decrypt_payload (env := Sample.env) Sample.half_open_vault h)
    = Heap (set_raw (VStr "A1") (VStr "SL5") (VStr "note") Sample.note)
           [EvDecryptWith "I3"; EvOpen "/vault/data/default/I3.1password";
            EvKeyDecrypt "A1" (VStr "note")] /\
  snd (decrypt_payload (env := Sample.env) Sample.half_open_vault h)
    = inr Sample.note_document /\
  snd out = inl (UnsupportedItemType "securenotes.SecureNote") /\
  KeychainItem._data (this (fst out)) = Sample.note_document /\
  KeychainItem._data Sample.note = VNone /\
  KeychainItem.password (this (fst out)) = KeychainItem.password Sample.note /\
  KeychainItem.username (this (fst out)) = KeychainItem.username Sample.note /\
  KeychainItem.website (this (fst out)) = KeychainItem.website Sample.note.
Proof.
  intros h out.
  pose proof (decrypt_with_stores_document_first (env := Sample.env)
                Sample.half_open_vault h _ Sample.note_document eq_refl)
    as (Hpw & _ & _).
  cbv zeta in Hpw.
  specialize (Hpw (UnsupportedItemType "securenotes.SecureNote") eq_refl).
  destruct Hpw as (Hout & Hd & Hp & Hu & Hw).
  split; [reflexivity|]. split; [reflexivity|].
  subst out. rewrite Hout. cbn [fst snd this].
  split; [reflexivity|]. split; [exact Hd|]. split; [reflexivity|].
  split; [exact Hp|]. split; [exact Hu|exact Hw].
Defined.

(** C10, as stated, fails when it is the user name extraction that raises:
    the password holds its new value by then. *)
Lemma password_overwritten_counterexample :
  let out := decrypt_with (env := Sample.env) Sample.half_open_vault
               (Heap Sample.broken []) in
  snd out = inl (KeyError (VStr "value")) /\
  KeychainItem._data (this (fst out)) = Sample.broken_document /\
  KeychainItem.password Sample.broken = VNone /\
  KeychainItem.password (this (fst out)) = VStr "p1" /\
  KeychainItem.password (this (fst out)) <> KeychainItem.password Sample.broken.
Proof. cbv zeta. repeat split. discriminate. Qed.

(** * Further properties *)

Section Tables.
Context {X V : Type} (key_of : X -> string) (value_of : X -> V).

Local Abbreviation fill := (fill key_of value_of).

Lemma find_over_app {A} (f : A -> bool) (l1 l2 : list A) :
  find f (l1 ++ l2) =
    match find f l1 with
    | Some a => Some a
    | None => find f l2
    end.
Proof.
  induction l1 as [|a l1 IH]; simpl; [reflexivity|].
  destruct (f a); [reflexivity|exact IH].
Qed.

Lemma keys_dict_set_in (k : string) (v : V) (d : list (string * V)) :
  In k (keys (dict_set k v d)).
Proof.
  induction d as [|[k' v'] d IH]; simpl; [now left|].
  destruct (k' =? k)%string eqn:E; simpl.
  - left. now apply String.eqb_eq.
  - right. exact IH.
Qed.

Lemma keys_dict_set_incl (k n : string) (v : V) (d : list (string * V)) :
  In n (keys (dict_set k v d)) -> n = k \/ In n (keys d).
Proof.
  induction d as [|[k' v'] d IH]; simpl.
  - intros [H|[]]. now left.
  - destruct (k' =? k)%string eqn:E; simpl.
    + intros [H|H]; right; [now left|now right].
    + intros [H|H]; [right; now left|].
      destruct (IH H) as [H'|H']; [now left|right; now right].
Qed.

Lemma keys_dict_set_present (k : string) (v : V) (d : list (string * V)) :
  In k (keys d) -> keys (dict_set k v d) = keys d.
Proof.
  induction d as [|[k' v'] d IH]; simpl; [intros []|].
  destruct (k' =? k)%string eqn:E; simpl; [reflexivity|].
  intros [H|H]; [apply String.eqb_neq in E; congruence|].
  now rewrite IH.
Qed.

Lemma NoDup_dict_set (k : string) (v : V) (d : list (string * V)) :
  NoDup (keys d) -> NoDup (keys (dict_set k v d)).
Proof.
  induction d as [|[k' v'] d IH]; simpl; intro H.
  - constructor; [intros []|constructor].
  - inversion H as [|? ? Hnot Hrest]; subst.
    destruct (k' =? k)%string eqn:E; simpl.
    + constructor; assumption.
    + constructor; [|now apply IH].
      intro Hin. apply keys_dict_set_incl in Hin as [Hin|Hin].
      * apply String.eqb_neq in E. congruence.
      * contradiction.
Qed.

Lemma lookup_in_values (k : string) (v : V) (d : list (string * V)) :
  dict_lookup k d = Some v -> In v (values d).
Proof.
  induction d as [|[k' v'] d IH]; simpl; [discriminate|].
  destruct (k' =? k)%string.
  - intros [= ->]. now left.
  - intro H. right. now apply IH.
Qed.

Lemma fill_NoDup (d : list (string * V)) (xs : list X) :
  NoDup (keys d) -> NoDup (keys (fill d xs)).
Proof.
  revert d. induction xs as [|x xs IH]; intros d H; simpl; [exact H|].
  apply IH. now apply NoDup_dict_set.
Qed.

(** What is stored under a name is what the last element with that name
    gave; a name no element has keeps what it had. *)
Lemma fill_lookup (d : list (string * V)) (xs : list X) (n : string) :
  dict_lookup n (fill d xs) =
    match find_last (fun x => (key_of x =? n)%string) xs with
    | Some x => Some (value_of x)
    | None => dict_lookup n d
    end.
Proof.
  unfold find_last. revert d. induction xs as [|x xs IH]; intro d; simpl.
  - reflexivity.
  - unfold fill in *. rewrite IH. rewrite find_over_app.
    destruct (find _ (rev xs)); [reflexivity|]. simpl.
    destruct (key_of x =? n)%string eqn:E.
    + apply String.eqb_eq in E. subst n. apply dict_lookup_set_same.
    + apply dict_lookup_set_other. apply String.eqb_neq in E. congruence.
Qed.

Lemma fill_keys (d : list (string * V)) (xs : list X) (n : string) :
  In n (keys (fill d xs)) <-> In n (keys d) \/ In n (map key_of xs).
Proof.
  revert d. induction xs as [|x xs IH]; intro d; simpl.
  - tauto.
  - unfold fill in *. rewrite IH. split.
    + intros [H|H]; [|tauto].
      apply keys_dict_set_incl in H as [->|H]; tauto.
    + intros [H|[H|H]]; [| |tauto].
      * left. destruct (string_dec n (key_of x)) as [->|Hne].
        -- apply keys_dict_set_in.
        -- clear IH. induction d as [|[k' v'] d IHd]; simpl in *; [tauto|].
           destruct (k' =? key_of x)%string; simpl; tauto.
      * left. subst n. apply keys_dict_set_in.
Qed.
End Tables.

Section Further.
Context {env : Collaborators}.

(** ** key, on any value *)

Lemma key_by_level_sound (ks : list EncryptionKey.t) (v : value)
  (k : EncryptionKey.t) :
  key_by_level ks v = Some k -> In k ks /\ level_eq k v = true.
Proof.
  induction ks as [|k' ks IH]; simpl; [discriminate|].
  destruct (level_eq k' v) eqn:E.
  - intros [= ->]. split; [now left|assumption].
  - intro H. destruct (IH H). split; [now right|assumption].
Qed.

Lemma by_level_sound (kc : Keychain.t) (security_level : value)
  (k : EncryptionKey.t) :
  (if truthy security_level
   then key_by_level (values (Keychain._encryption_keys kc)) security_level
   else None) = Some k ->
  In k (values (Keychain._encryption_keys kc)) /\
  exists l, security_level = VStr l /\ l <> ""%string /\
            EncryptionKey.level k = l.
Proof.
  destruct (truthy security_level) eqn:T; [|discriminate].
  intro H. apply key_by_level_sound in H as [Hin Hl]. split; [exact Hin|].
  destruct security_level as [| | |l| |]; try discriminate.
  exists l. split; [reflexivity|]. simpl in T, Hl. split.
  - intros ->. discriminate.
  - now apply String.eqb_eq.
Qed.

(** X1.  Whatever the two arguments are, a key that [key] returns is a key
    of the table, and it is the key stored under the identifier, a string
    that is not empty, or its level is the security level, a string that is
    not empty. *)
Theorem key_returns_matching_key (kc : Keychain.t)
  (identifier security_level : value) (k : EncryptionKey.t) :
  key kc identifier security_level = inr (Some k) ->
  In k (values (Keychain._encryption_keys kc)) /\
  ((exists i, identifier = VStr i /\ i <> ""%string /\
              dict_lookup i (Keychain._encryption_keys kc) = Some k) \/
   (exists l, security_level = VStr l /\ l <> ""%string /\
              EncryptionKey.level k = l)).
Proof.
  unfold key. intro H.
  assert (Hlevel : (if truthy security_level
                    then key_by_level
                           (values (Keychain._encryption_keys kc))
                           security_level
                    else None) = Some k ->
                   In k (values (Keychain._encryption_keys kc)) /\
                   ((exists i, identifier = VStr i /\ i <> ""%string /\
                      dict_lookup i (Keychain._encryption_keys kc) = Some k) \/
                    (exists l, security_level = VStr l /\ l <> ""%string /\
                      EncryptionKey.level k = l))).
  { intro Hl. apply by_level_sound in Hl as [Hin Hl]. split; [exact Hin|].
    now right. }
  destruct (truthy identifier) eqn:T.
  - destruct identifier as [|b|n|i|l|d]; simpl in H;
      try (apply Hlevel; congruence); try discriminate.
    destruct (dict_lookup i (Keychain._encryption_keys kc)) as [k'|] eqn:E.
    + injection H as ->. split; [eapply lookup_in_values; exact E|].
      left. exists i. split; [reflexivity|]. split; [|exact E].
      intros ->. discriminate.
    + apply Hlevel. congruence.
  - apply Hlevel. congruence.
Qed.

(** X2.  [key] raises exactly when the identifier is a list or a dictionary
    that is not empty, and then it is the [TypeError] of hashing it, whatever
    the security level; an empty list or dictionary is skipped as an
    identifier not given, and any other value not in the table is a caught
    [KeyError]. *)
Theorem key_raises_on_unhashable (kc : Keychain.t)
  (identifier security_level : value) (e : exn) :
  key kc identifier security_level = inl e <->
  unhashable_nonempty identifier = true /\ e = TypeError "unhashable type".
Proof.
  unfold key. split.
  - destruct identifier as [|b|n|i|[|x l]|[|x d]]; simpl;
      try discriminate;
      try (destruct b; discriminate);
      try (destruct (negb (n =? 0)); discriminate).
    + destruct (negb (i =? "")%string); [|discriminate].
      destruct (dict_lookup i (Keychain._encryption_keys kc)); discriminate.
    + intros [= <-]. split; reflexivity.
    + intros [= <-]. split; reflexivity.
  - intros [Hu ->].
    destruct identifier as [| | | |[|x l]|[|x d]]; try discriminate;
      reflexivity.
Qed.

(** ** unlock *)

(** X3.  [unlock] changes the keys and the lock and nothing else: the path,
    the items, and the identifiers under which the keys are stored, in their
    order, are what they were; one call to a key is recorded per key; and the
    lock is the negation of the answer, or what it was when [unlock]
    raises. *)
Theorem unlock_changes_keys_only (password : string) (kc : Keychain.t)
  (tr : list event) :
  let out := unlock password (Heap kc tr) in
  let kc' := this (fst out) in
  Keychain._path kc' = Keychain._path kc /\
  Keychain._items kc' = Keychain._items kc /\
  keys (Keychain._encryption_keys kc') = keys (Keychain._encryption_keys kc) /\
  calls (fst out) =
    tr ++ map (fun e => EvKeyUnlock (EncryptionKey.identifier (snd e))
                                    password)
              (Keychain._encryption_keys kc) /\
  Keychain._locked kc' =
    match snd out with
    | inr answer => negb answer
    | inl _ => Keychain._locked kc
    end.
Proof.
  cbv zeta. unfold unlock. cbn [this calls]. rewrite map_unlocker_eq.
  assert (Hkeys : keys (map (fun e : string * EncryptionKey.t =>
                               (fst e, fst (key_unlock (snd e) password)))
                            (Keychain._encryption_keys kc))
                  = keys (Keychain._encryption_keys kc)).
  { unfold keys. rewrite map_map. reflexivity. }
  destruct (reduce py_and _) as [e|answer]; cbn [fst snd this calls];
    repeat split; assumption.
Qed.

(** ** decrypt_with: what it leaves alone *)

Lemma decrypt_with_outcome (kc : Keychain.t) (h : heap KeychainItem.t) :
  let out := decrypt_with kc h in
  let i := this h in
  let i' := this (fst out) in
  (KeychainItem.class i' = KeychainItem.class i /\
   KeychainItem.identifier i' = KeychainItem.identifier i /\
   KeychainItem.name i' = KeychainItem.name i /\
   KeychainItem._path i' = KeychainItem._path i /\
   KeychainItem._type i' = KeychainItem._type i) /\
  (forall e,
     snd (decrypt_payload kc h) = inl e ->
     snd out = inl e /\ same_but_raw i i').
Proof.
  cbv zeta. rewrite decrypt_with_stages.
  pose proof (keeps_decrypt_payload kc h) as [Hsame _].
  destruct (decrypt_payload kc h) as [h1 [e|doc]]; cbn [fst snd] in *.
  - destruct Hsame as (Hc & Hi & Hn & Hp & Hu & Hw & Hpath & Ht & Hd).
    split; [repeat split; congruence|].
    intros e' [= <-]. split; [reflexivity|]. repeat split; assumption.
  - destruct Hsame as (Hc & Hi & Hn & _ & _ & _ & Hpath & Ht & _).
    split; [|discriminate]. cbv zeta.
    destruct (snd (_find_password _)); [repeat split; simpl; congruence|].
    destruct (snd (_find_username _)); [repeat split; simpl; congruence|].
    destruct (snd (_find_website _)); repeat split; simpl; congruence.
Qed.

(** X4.  [decrypt_with] never changes what identifies the item: its class,
    identifier, name, path and type are the same whatever happens.  When its
    first part raises (the file cannot be read, the key lookup raises, no key
    is found, the key refuses to decrypt, the text is not JSON), that
    exception is the one of [decrypt_with], and [_data], [password],
    [username] and [website] are untouched as well. *)
Theorem decrypt_with_keeps_identity (kc : Keychain.t)
  (h : heap KeychainItem.t) :
  let out := decrypt_with kc h in
  let i := this h in
  let i' := this (fst out) in
  (KeychainItem.class i' = KeychainItem.class i /\
   KeychainItem.identifier i' = KeychainItem.identifier i /\
   KeychainItem.name i' = KeychainItem.name i /\
   KeychainItem._path i' = KeychainItem._path i /\
   KeychainItem._type i' = KeychainItem._type i) /\
  (forall e,
     snd (decrypt_payload kc h) = inl e ->
     snd out = inl e /\
     KeychainItem._data i' = KeychainItem._data i /\
     KeychainItem.password i' = KeychainItem.password i /\
     KeychainItem.username i' = KeychainItem.username i /\
     KeychainItem.website i' = KeychainItem.website i).
Proof.
  cbv zeta. destruct (decrypt_with_outcome kc h) as [Hid Hfail].
  split; [exact Hid|].
  intros e He. destruct (Hfail e He) as [Hout Hsame].
  destruct Hsame as (_ & _ & _ & Hp & Hu & Hw & _ & _ & Hd).
  repeat split; congruence.
Qed.

(** ** item: what it leaves alone *)

Lemma lookup_some_in_keys {V} (k : string) (v : V) (d : list (string * V)) :
  dict_lookup k d = Some v -> In k (keys d).
Proof.
  induction d as [|[k' v'] d IH]; simpl; [discriminate|].
  destruct (k' =? k)%string eqn:E.
  - intros _. left. now apply String.eqb_eq.
  - intro H. right. now apply IH.
Qed.

(** X5.  [item] changes at most one item, the one the matcher named: the
    path, the key table and the lock are what they were, the names of the
    items and their order are the same, every item under another name is
    untouched, and the item under the matched name still has its class,
    identifier, name, path and type. *)
Theorem item_touches_one_item (name : string) (fuzzy_threshold : Z)
  (kc : Keychain.t) (tr : list event) :
  let out := item name fuzzy_threshold (Heap kc tr) in
  let kc' := this (fst out) in
  let candidate :=
    extractOne name (keys (Keychain._items kc)) (fuzzy_threshold - 1) in
  Keychain._path kc' = Keychain._path kc /\
  Keychain._encryption_keys kc' = Keychain._encryption_keys kc /\
  Keychain._locked kc' = Keychain._locked kc /\
  keys (Keychain._items kc') = keys (Keychain._items kc) /\
  (forall other,
     (forall score, candidate <> Some (other, score)) ->
     dict_lookup other (Keychain._items kc')
       = dict_lookup other (Keychain._items kc)) /\
  (forall n stored,
     dict_lookup n (Keychain._items kc) = Some stored ->
     exists stored',
       dict_lookup n (Keychain._items kc') = Some stored' /\
       KeychainItem.class stored' = KeychainItem.class stored /\
       KeychainItem.identifier stored' = KeychainItem.identifier stored /\
       KeychainItem.name stored' = KeychainItem.name stored /\
       KeychainItem._path stored' = KeychainItem._path stored /\
       KeychainItem._type stored' = KeychainItem._type stored).
Proof.
  cbv zeta.
  destruct (extractOne name (keys (Keychain._items kc)) (fuzzy_threshold - 1))
    as [[exact_name score]|] eqn:Hmatch.
  - destruct (dict_lookup exact_name (Keychain._items kc))
      as [matched|] eqn:Hstored.
    + rewrite (item_found name fuzzy_threshold kc tr exact_name score matched
                 Hmatch Hstored).
      cbn [fst snd this calls Keychain._path Keychain._encryption_keys
           Keychain._locked Keychain._items Keychain.set_items].
      repeat split.
      * apply keys_dict_set_present. eapply lookup_some_in_keys.
        exact Hstored.
      * intros other Hother. apply dict_lookup_set_other.
        intros ->. now apply (Hother score).
      * intros n stored Hn.
        destruct (string_dec n exact_name) as [->|Hne].
        -- rewrite dict_lookup_set_same. eexists. split; [reflexivity|].
           rewrite Hstored in Hn. injection Hn as <-.
           exact (proj1 (decrypt_with_outcome kc _)).
        -- rewrite dict_lookup_set_other by exact Hne.
           exists stored. repeat split. exact Hn.
    + rewrite (item_not_stored name fuzzy_threshold kc tr exact_name score
                 Hmatch Hstored).
      cbn [fst this]. repeat split.
      intros n stored Hn. exists stored. repeat split. exact Hn.
  - rewrite (item_no_match name fuzzy_threshold kc tr Hmatch).
    cbn [fst this]. repeat split.
    intros n stored Hn. exists stored. repeat split. exact Hn.
Qed.

(** ** Lazy loading: when the data file is not what it should be *)

Lemma lazily_load_not_loaded (i : KeychainItem.t) (tr : list event)
  (a : raw_attr) :
  KeychainItem.raw a i = None ->
  _lazily_load a (Heap i tr) =
    match _read_data_file (Heap i tr) with
    | (h, inl e) => (h, inl e)
    | (h, inr _) => getattr a h
    end.
Proof.
  intro Hraw. unfold _lazily_load.
  rewrite (bind_ok _ _ _ _ _ eq_refl : (i0 <- self ;; _) (Heap i tr) = _).
  cbn [this]. rewrite Hraw. unfold bind at 1.
  destruct (_read_data_file (Heap i tr)) as [h [e|[]]]; reflexivity.
Qed.

(** X6.  When the data file of an item cannot be read, or holds something
    that is not a dictionary, an access to a raw attribute of an item not yet
    loaded raises (what the reader raised, or the [AttributeError] of calling
    [get] on that value) and leaves the item as it was, with no raw
    attribute: the next access reads the file again. *)
Theorem failed_load_is_retried (i : KeychainItem.t) (tr : list event)
  (first second : raw_attr) :
  not_loaded i ->
  let failure :=
    match read_json (data_file i) with
    | inl e => Some e
    | inr (VDict _) => None
    | inr v => Some (AttributeError (type_name v) "get")
    end in
  forall e,
    failure = Some e ->
    _lazily_load first (Heap i tr) =
      (Heap i (tr ++ [EvOpen (data_file i)]), inl e) /\
    _lazily_load second (fst (_lazily_load first (Heap i tr))) =
      (Heap i (tr ++ [EvOpen (data_file i); EvOpen (data_file i)]), inl e).
Proof.
  intros Hnot failure e Hfail.
  assert (Hread : forall tr',
            _read_data_file (Heap i tr') =
              (Heap i (tr' ++ [EvOpen (data_file i)]), inl e)).
  { intro tr'. unfold _read_data_file, bind, self, emit, modify, lift.
    cbn [this calls]. subst failure.
    destruct (read_json (data_file i)) as [e'|v].
    - now injection Hfail as ->.
    - cbn [this calls].
      destruct v; try discriminate; injection Hfail as <-; reflexivity. }
  assert (Hload : forall a tr',
            _lazily_load a (Heap i tr') =
              (Heap i (tr' ++ [EvOpen (data_file i)]), inl e)).
  { intros a tr'. rewrite (lazily_load_not_loaded i tr' a (Hnot a)).
    now rewrite Hread. }
  split; [apply Hload|].
  rewrite Hload. cbn [fst]. rewrite Hload. now rewrite <- app_assoc.
Qed.

(** X7.  When the data file is a dictionary without [encrypted] entry, the
    first access to a raw attribute of an item not yet loaded raises
    [KeyError] after the key identifier and the security level were set.
    From then on these two are returned without reading the file, and every
    access to the payload reads the file again and raises again. *)
Theorem load_without_payload_is_partial (i : KeychainItem.t)
  (tr tr' : list event) (d : list (string * value)) (first : raw_attr) :
  not_loaded i ->
  read_json (data_file i) = inr (VDict d) ->
  dict_lookup "encrypted" d = None ->
  let key_id := attribute "keyID" (VDict d) in
  let sec_level := attribute "securityLevel" (VDict d) in
  let i' := KeychainItem.set_security_level sec_level
              (KeychainItem.set_key_identifier key_id i) in
  let no_payload := KeyError (VStr "encrypted") in
  _lazily_load first (Heap i tr) =
    (Heap i' (tr ++ [EvOpen (data_file i)]), inl no_payload) /\
  KeychainItem._encrypted_json i' = None /\
  key_identifier (Heap i' tr') = (Heap i' tr', inr key_id) /\
  security_level (Heap i' tr') = (Heap i' tr', inr sec_level) /\
  _lazily_load attr_encrypted_json (Heap i' tr') =
    (Heap i' (tr' ++ [EvOpen (data_file i)]), inl no_payload).
Proof.
  intros Hnot Hread Hmissing key_id sec_level i' no_payload.
  assert (Hfile : data_file i' = data_file i) by reflexivity.
  assert (Hid : forall j, data_file j = data_file i ->
            KeychainItem.set_security_level sec_level
              (KeychainItem.set_key_identifier key_id j) = i' ->
            forall tr0,
              _read_data_file (Heap j tr0) =
                (Heap i' (tr0 ++ [EvOpen (data_file i)]), inl no_payload)).
  { intros j Hj Hset tr0.
    unfold _read_data_file, bind, self, emit, update, modify, lift.
    cbn [this calls]. rewrite Hj, Hread. cbn [this calls py_get py_getitem].
    rewrite Hmissing. fold (attribute "keyID" (VDict d)).
    fold (attribute "securityLevel" (VDict d)). fold key_id sec_level.
    rewrite Hset. reflexivity. }
  assert (Hnone : KeychainItem._encrypted_json i' = None)
    by exact (Hnot attr_encrypted_json).
  split; [|split; [exact Hnone|split; [|split]]].
  - rewrite (lazily_load_not_loaded i tr first (Hnot first)).
    rewrite (Hid i eq_refl eq_refl). reflexivity.
  - reflexivity.
  - reflexivity.
  - rewrite (lazily_load_not_loaded i' tr' attr_encrypted_json Hnone).
    rewrite (Hid i' Hfile); [reflexivity|].
    subst i'. destruct i. reflexivity.
Qed.

(** ** The path of a data file *)

Lemma endswith_sep_app (a b : string) :
  b <> ""%string -> endswith_sep (a ++ b) = endswith_sep b.
Proof.
  intro Hb. induction a as [|c a IH]; [reflexivity|].
  cbn [String.append]. simpl endswith_sep.
  destruct (a ++ b)%string eqn:E.
  - destruct a; [simpl in E; congruence|discriminate].
  - exact IH.
Qed.

Lemma app_not_empty (a b : string) :
  b <> ""%string -> (a ++ b)%string <> ""%string.
Proof. destruct a; simpl; [trivial|discriminate]. Qed.

Lemma startswith_sep_filename (identifier : string) :
  startswith_sep (identifier ++ ".1password") = startswith_sep identifier.
Proof. destruct identifier; reflexivity. Qed.

Lemma string_app_assoc (a b c : string) :
  ((a ++ b) ++ c)%string = (a ++ (b ++ c))%string.
Proof. induction a as [|x a IH]; simpl; [reflexivity|now rewrite IH]. Qed.

(** X8.  The data file of an item is
    [<path>/data/default/<identifier>.1password] when the path of the vault
    is not empty and the identifier does not begin with a slash (a path that
    ends in a slash gets no second one).  An identifier that begins with a
    slash makes [join] drop the path of the vault: the file read is
    [<identifier>.1password], outside the vault. *)
Theorem data_file_location (i : KeychainItem.t) :
  let path := KeychainItem._path i in
  let identifier := KeychainItem.identifier i in
  (startswith_sep identifier = true ->
   data_file i = (identifier ++ ".1password")%string) /\
  (startswith_sep identifier = false ->
   path <> ""%string ->
   data_file i =
     if endswith_sep path
     then (path ++ "data/default/" ++ identifier ++ ".1password")%string
     else (path ++ "/data/default/" ++ identifier ++ ".1password")%string).
Proof.
  cbv zeta. unfold data_file, os_path_join. cbn [fold_left]. split.
  - intro Habs. unfold join2 at 1.
    now rewrite startswith_sep_filename, Habs.
  - intros Hrel Hpath. unfold join2 at 1.
    rewrite startswith_sep_filename, Hrel.
    assert (Hfirst : join2 (KeychainItem._path i) "data" =
                     if endswith_sep (KeychainItem._path i)
                     then (KeychainItem._path i ++ "data")%string
                     else (KeychainItem._path i ++ "/data")%string).
    { unfold join2. cbn [startswith_sep].
      apply String.eqb_neq in Hpath. rewrite Hpath. cbn [orb].
      destruct (endswith_sep (KeychainItem._path i)); reflexivity. }
    assert (Hsecond : forall a, endswith_sep a = false -> a <> ""%string ->
              join2 a "default" = (a ++ "/default")%string).
    { intros a Ha Hne. unfold join2. cbn [startswith_sep].
      apply String.eqb_neq in Hne. rewrite Hne, Ha. reflexivity. }
    rewrite Hfirst.
    destruct (endswith_sep (KeychainItem._path i)).
    + rewrite Hsecond;
        [|rewrite endswith_sep_app; [reflexivity|discriminate]
         |apply app_not_empty; discriminate].
      rewrite endswith_sep_app by discriminate. cbn [endswith_sep].
      replace ((((KeychainItem._path i ++ "data") ++ "/default") =? "")%string)
        with false
        by (symmetry; apply String.eqb_neq, app_not_empty; discriminate).
      cbn [orb Ascii.eqb Bool.eqb]. rewrite !string_app_assoc. reflexivity.
    + rewrite Hsecond;
        [|rewrite endswith_sep_app; [reflexivity|discriminate]
         |apply app_not_empty; discriminate].
      rewrite endswith_sep_app by discriminate. cbn [endswith_sep].
      replace ((((KeychainItem._path i ++ "/data") ++ "/default") =? "")%string)
        with false
        by (symmetry; apply String.eqb_neq, app_not_empty; discriminate).
      cbn [orb Ascii.eqb Bool.eqb]. rewrite !string_app_assoc. reflexivity.
Qed.

(** ** decrypt_with: when it succeeds *)

(** What the extraction methods return depends on the class, the type and
    the document of the item only. *)
Lemma find_field_loop_result (fields : list value) (key : string)
  (h h' : heap KeychainItem.t) :
  snd (_find_field_loop fields key h) = snd (_find_field_loop fields key h').
Proof.
  induction fields as [|field rest IH]; [reflexivity|].
  cbn [_find_field_loop]. unfold bind, lift.
  destruct (py_get field "designation") as [e|dv]; [reflexivity|].
  destruct (caseequal dv (VStr key)) as [e|c1]; [reflexivity|].
  destruct (truthy c1); [reflexivity|].
  destruct (py_get field "name") as [e|nv]; [reflexivity|].
  destruct (caseequal nv (VStr key)) as [e|c2]; [reflexivity|].
  destruct (truthy c2); [reflexivity|exact IH].
Qed.

Lemma find_field_result (key : string) (i j : KeychainItem.t)
  (tr tr' : list event) :
  KeychainItem._data i = KeychainItem._data j ->
  snd (_find_field key (Heap i tr)) = snd (_find_field key (Heap j tr')).
Proof.
  intro Hd. unfold _find_field, bind, self, lift. cbn [this]. rewrite Hd.
  destruct (py_getitem (KeychainItem._data j) "fields") as [e|f];
    [reflexivity|].
  destruct (py_iter f) as [e|l]; [reflexivity|].
  apply find_field_loop_result.
Qed.

Lemma find_password_result (i j : KeychainItem.t) (tr tr' : list event) :
  same_view i j ->
  snd (_find_password (Heap i tr)) = snd (_find_password (Heap j tr')).
Proof.
  intros (Hc & Ht & Hd). unfold _find_password, bind, self. cbn [this].
  rewrite Hc, Ht. destruct (KeychainItem.class j).
  - reflexivity.
  - now apply find_field_result.
  - unfold lift. now rewrite Hd.
Qed.

Lemma find_username_result (i j : KeychainItem.t) (tr tr' : list event) :
  same_view i j ->
  snd (_find_username (Heap i tr)) = snd (_find_username (Heap j tr')).
Proof.
  intros (Hc & Ht & Hd). unfold _find_username, bind, self. cbn [this].
  rewrite Hc. destruct (KeychainItem.class j).
  - reflexivity.
  - now apply find_field_result.
  - unfold lift. now rewrite Hd.
Qed.

Lemma find_website_result (i j : KeychainItem.t) (tr tr' : list event) :
  same_view i j ->
  snd (_find_website (Heap i tr)) = snd (_find_website (Heap j tr')).
Proof.
  intros (Hc & Ht & Hd). unfold _find_website, bind, self. cbn [this].
  rewrite Hc. destruct (KeychainItem.class j); try reflexivity.
  unfold WebForm_find_website, bind, self, lift, ret. cbn [this]. rewrite Hd.
  destruct (py_get (KeychainItem._data j) "URLs") as [e|urls]; [reflexivity|].
  destruct (truthy urls); [|reflexivity].
  destruct (py_len urls) as [e|n]; [reflexivity|].
  destruct (0 <? n); [|reflexivity].
  destruct (py_first urls) as [e|f]; reflexivity.
Qed.

(** [decrypt_with] on an item whose raw attributes are available and whose
    key is there, given what the three extractions return on the document. *)
Lemma decrypt_with_ready (kc : Keychain.t) (i : KeychainItem.t)
  (tr : list event) (key_id sec_level enc : value) (k : EncryptionKey.t)
  (doc : value) :
  ready i key_id sec_level enc ->
  key kc key_id sec_level = inr (Some k) ->
  decrypted_document k enc = inr doc ->
  let tr' := (tr ++ EvDecryptWith (KeychainItem.identifier i)
                 :: load_events i)
             ++ [EvKeyDecrypt (EncryptionKey.identifier k) enc] in
  let i2 := KeychainItem.set_data doc (set_raw key_id sec_level enc i) in
  decrypt_with kc (Heap i tr) =
    match snd (_find_password (Heap i2 tr')) with
    | inl e => (Heap i2 tr', inl e)
    | inr p =>
        let i3 := KeychainItem.set_password p i2 in
        match snd (_find_username (Heap i3 tr')) with
        | inl e => (Heap i3 tr', inl e)
        | inr u =>
            let i4 := KeychainItem.set_username u i3 in
            match snd (_find_website (Heap i4 tr')) with
            | inl e => (Heap i4 tr', inl e)
            | inr w => (Heap (KeychainItem.set_website w i4) tr', inr tt)
            end
        end
    end.
Proof.
  intros Hready Hkey Hdoc tr' i2. rewrite decrypt_with_stages.
  rewrite (decrypt_payload_ready kc i tr key_id sec_level enc Hready).
  rewrite Hkey, Hdoc. reflexivity.
Qed.

(** X9.  A login item ([passwords.Password] or a generic account) whose key
    is found and whose payload decrypts to a dictionary is always decrypted:
    [password] and [username] are the entries of these names of the
    document, [None] when it has none, [website] is [None], [_data] is the
    document.  When the payload decrypts to anything else, [decrypt_with]
    raises the [AttributeError] of calling [get] on it, after [_data] was
    set. *)
Theorem login_item_decrypts (kc : Keychain.t) (i : KeychainItem.t)
  (tr : list event) (key_id sec_level enc : value) (k : EncryptionKey.t)
  (doc : value) :
  KeychainItem.class i = Password ->
  ready i key_id sec_level enc ->
  key kc key_id sec_level = inr (Some k) ->
  decrypted_document k enc = inr doc ->
  let tr' := (tr ++ EvDecryptWith (KeychainItem.identifier i)
                 :: load_events i)
             ++ [EvKeyDecrypt (EncryptionKey.identifier k) enc] in
  decrypt_with kc (Heap i tr) =
    match doc with
    | VDict _ =>
        (Heap (decrypted_item key_id sec_level enc doc
                 (attribute "password" doc) (attribute "username" doc)
                 VNone i) tr',
         inr tt)
    | _ =>
        (Heap (KeychainItem.set_data doc (set_raw key_id sec_level enc i)) tr',
         inl (AttributeError (type_name doc) "get"))
    end.
Proof.
  intros Hclass Hready Hkey Hdoc tr'.
  rewrite (decrypt_with_ready kc i tr key_id sec_level enc k doc
             Hready Hkey Hdoc).
  cbv zeta. fold tr'.
  unfold _find_password, _find_username, _find_website, bind, self, lift, ret.
  cbn [this snd KeychainItem.class KeychainItem._data KeychainItem.set_data
       KeychainItem.set_password KeychainItem.set_username set_raw
       KeychainItem.set_encrypted_json KeychainItem.set_security_level
       KeychainItem.set_key_identifier].
  rewrite Hclass. destruct doc; reflexivity.
Qed.

Lemma webform_finds (i : KeychainItem.t) (tr : list event)
  (d : list (string * value)) (fields : list value) :
  KeychainItem.class i = WebForm ->
  KeychainItem._data i = VDict d ->
  dict_lookup "fields" d = Some (VList fields) ->
  forallb entry_ok fields = true ->
  urls_ok d = true ->
  snd (_find_password (Heap i tr)) = first_value "password" fields /\
  snd (_find_username (Heap i tr)) = first_value "username" fields /\
  snd (_find_website (Heap i tr)) = inr (first_url d).
Proof.
  intros Hclass Hdata Hfields Hok Hurls.
  assert (Hfind : forall key, key <> ""%string ->
            snd (_find_field key (Heap i tr)) = first_value key fields).
  { intros key Hkey. unfold _find_field, bind, self, lift. cbn [this].
    rewrite Hdata. cbn [py_getitem]. rewrite Hfields. cbn [py_iter].
    now rewrite find_field_loop_first_value. }
  unfold _find_password, _find_username, _find_website, bind, self.
  cbn [this]. rewrite Hclass. repeat split; try (apply Hfind; discriminate).
  unfold WebForm_find_website, bind, self, lift, ret. cbn [this].
  rewrite Hdata. unfold urls_ok in Hurls. unfold first_url. cbn [py_get].
  destruct (dict_lookup "URLs" d) as [[| | | |[|[| | | | |u] rest]|]|];
    try discriminate; reflexivity.
Qed.

(** X10.  A web form item whose key is found and whose payload decrypts to
    a well-formed document with a password and a user name entry is
    decrypted: [password] and [username] are the values of the first entries
    of [fields] named so, up to case, and [website] is the [url] of the first
    entry of [URLs], [None] without one. *)
Theorem web_form_item_decrypts (kc : Keychain.t) (i : KeychainItem.t)
  (tr : list event) (key_id sec_level enc : value) (k : EncryptionKey.t)
  (d : list (string * value)) (fields : list value) (p u : value) :
  KeychainItem.class i = WebForm ->
  ready i key_id sec_level enc ->
  key kc key_id sec_level = inr (Some k) ->
  decrypted_document k enc = inr (VDict d) ->
  dict_lookup "fields" d = Some (VList fields) ->
  forallb entry_ok fields = true ->
  urls_ok d = true ->
  first_value "password" fields = inr p ->
  first_value "username" fields = inr u ->
  decrypt_with kc (Heap i tr) =
    (Heap (decrypted_item key_id sec_level enc (VDict d) p u (first_url d) i)
          ((tr ++ EvDecryptWith (KeychainItem.identifier i) :: load_events i)
           ++ [EvKeyDecrypt (EncryptionKey.identifier k) enc]),
     inr tt).
Proof.
  intros Hclass Hready Hkey Hdoc Hfields Hok Hurls Hp Hu.
  rewrite (decrypt_with_ready kc i tr key_id sec_level enc k (VDict d)
             Hready Hkey Hdoc).
  cbv zeta.
  match goal with
  | |- context [snd (_find_password (Heap ?j ?t))] =>
      destruct (webform_finds j t d fields Hclass eq_refl Hfields Hok Hurls)
        as (-> & _ & _)
  end.
  rewrite Hp. cbv beta iota.
  match goal with
  | |- context [snd (_find_username (Heap ?j ?t))] =>
      destruct (webform_finds j t d fields Hclass eq_refl Hfields Hok Hurls)
        as (_ & -> & _)
  end.
  rewrite Hu. cbv beta iota.
  match goal with
  | |- context [snd (_find_website (Heap ?j ?t))] =>
      destruct (webform_finds j t d fields Hclass eq_refl Hfields Hok Hurls)
        as (_ & _ & ->)
  end.
  reflexivity.
Qed.

(** X11.  Decrypting twice is decrypting once: after a [decrypt_with] that
    returned, a second one on the same keychain returns too, leaves the item
    exactly as the first left it, and reads no file; it only asks the key to
    decrypt the payload again. *)
Theorem decrypt_with_twice (kc : Keychain.t) (i : KeychainItem.t)
  (tr : list event) (key_id sec_level enc : value)
  (h' : heap KeychainItem.t) :
  ready i key_id sec_level enc ->
  decrypt_with kc (Heap i tr) = (h', inr tt) ->
  forall tr2,
  exists k,
    key kc key_id sec_level = inr (Some k) /\
    decrypt_with kc (Heap (this h') tr2) =
      (Heap (this h')
            (tr2 ++ [EvDecryptWith (KeychainItem.identifier i);
                     EvKeyDecrypt (EncryptionKey.identifier k) enc]),
       inr tt).
Proof.
  intros Hready Hfirst tr2.
  pose proof Hfirst as Hrun. rewrite decrypt_with_stages in Hrun.
  rewrite (decrypt_payload_ready kc i tr key_id sec_level enc Hready) in Hrun.
  destruct (key kc key_id sec_level) as [e|[k|]] eqn:Hkey;
    [discriminate| |discriminate].
  destruct (decrypted_document k enc) as [e|doc] eqn:Hdoc; [discriminate|].
  cbv zeta in Hrun. cbn [this calls] in Hrun.
  destruct (snd (_find_password _)) as [e|p] eqn:Hp in Hrun; [discriminate|].
  destruct (snd (_find_username _)) as [e|u] eqn:Hu in Hrun; [discriminate|].
  destruct (snd (_find_website _)) as [e|w] eqn:Hw in Hrun; [discriminate|].
  injection Hrun as <-. cbn [this].
  exists k. split; [reflexivity|].
  set (i' := KeychainItem.set_website w _).
  assert (Hloaded : loaded_with i' key_id sec_level enc) by (repeat split).
  rewrite (decrypt_with_ready kc i' tr2 key_id sec_level enc k doc
             (or_introl Hloaded) Hkey Hdoc).
  cbv zeta.
  rewrite (loaded_set_raw i' key_id sec_level enc Hloaded).
  replace (load_events i') with (@nil event) by reflexivity.
  replace (KeychainItem.identifier i') with (KeychainItem.identifier i)
    by reflexivity.
  replace (KeychainItem.set_data doc i') with i'
    by (subst i'; destruct i; reflexivity).
  match type of Hp with
  | snd (_find_password (Heap ?j ?t)) = _ =>
      rewrite (find_password_result i' j _ t) by (repeat split)
  end.
  rewrite Hp. cbv beta iota.
  replace (KeychainItem.set_password p i') with i'
    by (subst i'; destruct i; reflexivity).
  match type of Hu with
  | snd (_find_username (Heap ?j ?t)) = _ =>
      rewrite (find_username_result i' j _ t) by (repeat split)
  end.
  rewrite Hu. cbv beta iota.
  replace (KeychainItem.set_username u i') with i'
    by (subst i'; destruct i; reflexivity).
  match type of Hw with
  | snd (_find_website (Heap ?j ?t)) = _ =>
      rewrite (find_website_result i' j _ t) by (repeat split)
  end.
  rewrite Hw. cbv beta iota.
  replace (KeychainItem.set_website w i') with i'
    by (subst i'; destruct i; reflexivity).
  rewrite <- app_assoc. reflexivity.
Qed.

(** ** caseequal *)


(** ** Loading the key table *)

Lemma load_key_definitions_fill (defs : list value)
  (ks : list EncryptionKey.t) :
  Forall2 (fun d k => new_key d = inr k) defs ks ->
  forall kc tr,
    load_key_definitions defs (Heap kc tr) =
      (Heap (Keychain.set_encryption_keys
               (fill EncryptionKey.identifier (fun k => k)
                     (Keychain._encryption_keys kc) ks) kc) tr,
       inr tt).
Proof.
  induction 1 as [|d k defs ks Hd _ IH]; intros kc tr.
  - destruct kc. reflexivity.
  - cbn [load_key_definitions]. unfold bind at 1, lift at 1. rewrite Hd.
    rewrite (bind_ok _ _ _ _ _ eq_refl : (update _ ;;; _) (Heap kc tr) = _).
    cbn [this calls]. rewrite IH. reflexivity.
Qed.

Lemma load_key_definitions_stops (good : list value)
  (ks : list EncryptionKey.t) (bad : value) (rest : list value) (e : exn) :
  Forall2 (fun d k => new_key d = inr k) good ks ->
  new_key bad = inl e ->
  forall kc tr,
    load_key_definitions (good ++ bad :: rest) (Heap kc tr) =
      (Heap (Keychain.set_encryption_keys
               (fill EncryptionKey.identifier (fun k => k)
                     (Keychain._encryption_keys kc) ks) kc) tr,
       inl e).
Proof.
  intros Hgood Hbad. induction Hgood as [|d k good ks Hd _ IH]; intros kc tr.
  - cbn [app load_key_definitions]. unfold bind, lift. rewrite Hbad.
    destruct kc. reflexivity.
  - cbn [app load_key_definitions]. unfold bind at 1, lift at 1. rewrite Hd.
    rewrite (bind_ok _ _ _ _ _ eq_refl : (update _ ;;; _) (Heap kc tr) = _).
    cbn [this calls]. rewrite IH. reflexivity.
Qed.

Lemma load_encryption_keys_run (kc : Keychain.t) (tr : list event)
  (key_data l : value) (defs : list value) :
  let path := os_path_join (Keychain._path kc)
                ["data"; "default"; "encryptionKeys.js"]%string in
  read_json path = inr key_data ->
  py_getitem key_data "list" = inr l ->
  py_iter l = inr defs ->
  _load_encryption_keys (Heap kc tr) =
    load_key_definitions defs
      (Heap (Keychain.set_encryption_keys [] kc) (tr ++ [EvOpen path])).
Proof.
  intros path Hread Hlist Hiter.
  unfold _load_encryption_keys, bind, self, emit, update, modify, lift.
  cbn [this calls]. fold path. rewrite Hread. cbn [this calls].
  rewrite Hlist, Hiter. reflexivity.
Qed.

(** X13.  When the key table document has a [list] and every entry of it
    makes a key, [_load_encryption_keys] replaces the table by one built from
    these keys alone: no two keys are stored under one identifier, what is
    stored under an identifier is the last key of the list with it, and so
    [key] called with an identifier of the table that is not empty returns a
    key that has this identifier, whatever the security level. *)
Theorem load_encryption_keys_table (kc : Keychain.t) (tr : list event)
  (key_data l : value) (defs : list value) (ks : list EncryptionKey.t) :
  let path := os_path_join (Keychain._path kc)
                ["data"; "default"; "encryptionKeys.js"]%string in
  read_json path = inr key_data ->
  py_getitem key_data "list" = inr l ->
  py_iter l = inr defs ->
  Forall2 (fun d k => new_key d = inr k) defs ks ->
  let table := fill EncryptionKey.identifier (fun k => k) [] ks in
  let kc' := Keychain.set_encryption_keys table kc in
  _load_encryption_keys (Heap kc tr) =
    (Heap kc' (tr ++ [EvOpen path]), inr tt) /\
  NoDup (keys table) /\
  (forall i,
     dict_lookup i table =
       find_last (fun k => (EncryptionKey.identifier k =? i)%string) ks) /\
  (forall i k security_level,
     i <> ""%string ->
     dict_lookup i table = Some k ->
     EncryptionKey.identifier k = i /\
     key kc' (VStr i) security_level = inr (Some k)).
Proof.
  intros path Hread Hlist Hiter Hkeys table kc'.
  assert (Hlookup : forall i,
            dict_lookup i table =
              find_last (fun k => (EncryptionKey.identifier k =? i)%string)
                        ks).
  { intro i. unfold table. rewrite fill_lookup.
    destruct (find_last _ ks); reflexivity. }
  split; [|split; [|split]].
  - rewrite (load_encryption_keys_run kc tr key_data l defs Hread Hlist Hiter).
    rewrite (load_key_definitions_fill defs ks Hkeys). reflexivity.
  - apply fill_NoDup. constructor.
  - exact Hlookup.
  - intros i k security_level Hi Hk. split.
    + rewrite Hlookup in Hk. unfold find_last in Hk.
      apply find_some in Hk as [_ Hk]. now apply String.eqb_eq.
    + unfold key. cbn [truthy]. apply String.eqb_neq in Hi. rewrite Hi.
      cbn [negb keys_getitem]. unfold kc'.
      cbn [Keychain._encryption_keys Keychain.set_encryption_keys].
      now rewrite Hk.
Qed.

(** X14.  When it fails, [_load_encryption_keys] leaves the table in one of
    three states: untouched when the file cannot be read; empty when the
    document has no [list]; holding the keys made so far when an entry of
    the list does not make a key. *)
Theorem load_encryption_keys_failures (kc : Keychain.t) (tr : list event) :
  let path := os_path_join (Keychain._path kc)
                ["data"; "default"; "encryptionKeys.js"]%string in
  let tr' := tr ++ [EvOpen path] in
  (forall e,
     read_json path = inl e ->
     _load_encryption_keys (Heap kc tr) = (Heap kc tr', inl e)) /\
  (forall key_data e,
     read_json path = inr key_data ->
     py_getitem key_data "list" = inl e ->
     _load_encryption_keys (Heap kc tr) =
       (Heap (Keychain.set_encryption_keys [] kc) tr', inl e)) /\
  (forall key_data l good ks bad rest e,
     read_json path = inr key_data ->
     py_getitem key_data "list" = inr l ->
     py_iter l = inr (good ++ bad :: rest) ->
     Forall2 (fun d k => new_key d = inr k) good ks ->
     new_key bad = inl e ->
     _load_encryption_keys (Heap kc tr) =
       (Heap (Keychain.set_encryption_keys
                (fill EncryptionKey.identifier (fun k => k) [] ks) kc) tr',
        inl e)).
Proof.
  intros path tr'. split; [|split].
  - intros e Hread.
    unfold _load_encryption_keys, bind, self, emit, update, modify, lift.
    cbn [this calls]. fold path. rewrite Hread. reflexivity.
  - intros key_data e Hread Hlist.
    unfold _load_encryption_keys, bind, self, emit, update, modify, lift.
    cbn [this calls]. fold path. rewrite Hread. cbn [this calls].
    rewrite Hlist. reflexivity.
  - intros key_data l good ks bad rest e Hread Hlist Hiter Hgood Hbad.
    rewrite (load_encryption_keys_run kc tr key_data l _ Hread Hlist Hiter).
    rewrite (load_key_definitions_stops good ks bad rest e Hgood Hbad).
    reflexivity.
Qed.

(** ** Loading the item index *)

Lemma build_fields (identifier type name path : string) :
  let i := KeychainItem.build identifier type name path in
  KeychainItem.identifier i = identifier /\
  KeychainItem.name i = name /\
  KeychainItem._path i = path /\
  KeychainItem._type i = type /\
  KeychainItem.password i = VNone /\
  KeychainItem.username i = VNone /\
  KeychainItem.website i = VNone /\
  KeychainItem._data i = VNone /\
  not_loaded i.
Proof.
  unfold KeychainItem.build.
  destruct (type =? "webforms.WebForm")%string;
    [|destruct ((type =? "passwords.Password")
                || (type =? "wallet.onlineservices.GenericAccount"))%string%bool];
    repeat split; intros [| |]; reflexivity.
Qed.

Lemma load_item_definitions_fill (rows : list (string * string * string))
  (kc : Keychain.t) (tr : list event) :
  load_item_definitions rows (Heap kc tr) =
    (Heap (Keychain.set_items
             (fill row_name (row_item (Keychain._path kc))
                   (Keychain._items kc) rows) kc) tr,
     inr tt).
Proof.
  revert kc. induction rows as [|[[identifier type] name] rows IH]; intro kc.
  - destruct kc. reflexivity.
  - cbn [load_item_definitions].
    rewrite (bind_ok _ _ _ _ _ eq_refl : (k <- self ;; _) (Heap kc tr) = _).
    cbn [this].
    rewrite (bind_ok _ _ _ _ _ eq_refl : (update _ ;;; _) (Heap kc tr) = _).
    cbn [this calls]. rewrite IH.
    cbn [Keychain._path Keychain._items Keychain.set_items fill fold_left].
    unfold row_name, row_item. cbn [fst snd].
    destruct (build_fields identifier type name (Keychain._path kc))
      as (_ & -> & _).
    reflexivity.
Qed.

(** X15.  The loop of [_load_item_list] stores one item per name: a later
    row with the name of an earlier one replaces its item, so what is stored
    under a name is the item built from the last row with that name; the
    names stored are those that were there and those of the rows, each once;
    and the item of a row is a fresh one, with the identifier, type and name
    of the row, the path of the keychain, no decrypted field and no raw
    attribute. *)
Theorem load_item_definitions_table (rows : list (string * string * string))
  (kc : Keychain.t) (tr : list event) :
  let path := Keychain._path kc in
  let items := fill row_name (row_item path) (Keychain._items kc) rows in
  load_item_definitions rows (Heap kc tr) =
    (Heap (Keychain.set_items items kc) tr, inr tt) /\
  (NoDup (keys (Keychain._items kc)) -> NoDup (keys items)) /\
  (forall n,
     In n (keys items) <->
     In n (keys (Keychain._items kc)) \/ In n (map row_name rows)) /\
  (forall n,
     dict_lookup n items =
       match find_last (fun row => (row_name row =? n)%string) rows with
       | Some row => Some (row_item path row)
       | None => dict_lookup n (Keychain._items kc)
       end) /\
  (forall row,
     let i := row_item path row in
     KeychainItem.identifier i = fst (fst row) /\
     KeychainItem._type i = snd (fst row) /\
     KeychainItem.name i = row_name row /\
     KeychainItem._path i = path /\
     KeychainItem.password i = VNone /\
     KeychainItem.username i = VNone /\
     KeychainItem.website i = VNone /\
     KeychainItem._data i = VNone /\
     not_loaded i).
Proof.
  intros path items. split; [apply load_item_definitions_fill|].
  split; [apply fill_NoDup|]. split; [apply fill_keys|].
  split; [apply fill_lookup|].
  intros [[identifier type] name]. cbv zeta. unfold row_item, row_name.
  cbn [fst snd].
  destruct (build_fields identifier type name path)
    as (H1 & H2 & H3 & H4 & H5 & H6 & H7 & H8 & H9).
  repeat split; assumption.
Qed.
End Further.

(** * Further examples on the sample vault *)

Lemma key_returns_matching_key_witness :
  key Sample.half_open_vault (VStr "Z9") (VStr "SL5") = inr (Some
    (EncryptionKey.Make "A1" "SL5" "blobA" 1000 "hunter2" (Some "hunter2")))
  /\ In (EncryptionKey.Make "A1" "SL5" "blobA" 1000 "hunter2"
                            (Some "hunter2"))
        (values (Keychain._encryption_keys Sample.half_open_vault)).
Proof.
  split; [reflexivity|].
  exact (proj1 (key_returns_matching_key Sample.half_open_vault
                  (VStr "Z9") (VStr "SL5") _ eq_refl)).
Defined.

Lemma decrypt_with_keeps_identity_witness :
  let out := decrypt_with (env := Sample.env) Sample.half_open_vault
               (Heap Sample.orphan []) in
  snd (decrypt_payload (env := Sample.env) Sample.half_open_vault
         (Heap Sample.orphan [])) = inl KeyNotFound /\
  snd out = inl KeyNotFound /\
  KeychainItem._data (this (fst out)) = VNone /\
  KeychainItem.name (this (fst out)) = "orphan"%string.
Proof.
  intro out.
  pose proof (decrypt_with_keeps_identity (env := Sample.env)
                Sample.half_open_vault (Heap Sample.orphan []))
    as ((_ & _ & Hname & _) & Hfail).
  destruct (Hfail KeyNotFound eq_refl) as (Hout & Hdata & _).
  split; [reflexivity|]. split; [exact Hout|]. split; [exact Hdata|].
  exact Hname.
Defined.

Lemma item_touches_one_item_witness :
  let out := item (env := Sample.env) "gmail" 100
               (Heap Sample.half_open_vault []) in
  (forall score,
     extractOne (Collaborators := Sample.env) "gmail"
       (keys (Keychain._items Sample.half_open_vault)) (100 - 1)
       <> Some ("bank"%string, score)) /\
  dict_lookup "bank" (Keychain._items (this (fst out))) = Some Sample.bank /\
  keys (Keychain._items (this (fst out)))
    = ["gmail"; "bank"; "note"; "orphan"; "truncated"; "broken";
       "lost note"]%string.
Proof.
  intro out.
  assert (Hother : forall score,
            extractOne (Collaborators := Sample.env) "gmail"
              (keys (Keychain._items Sample.half_open_vault)) (100 - 1)
              <> Some ("bank"%string, score)) by (intros score; discriminate).
  pose proof (item_touches_one_item (env := Sample.env) "gmail" 100
                Sample.half_open_vault [])
    as (_ & _ & _ & Hkeys & Hothers & _).
  split; [exact Hother|]. split.
  - exact (Hothers "bank"%string Hother).
  - exact Hkeys.
Defined.

Lemma failed_load_is_retried_witness :
  not_loaded More.missing /\
  _lazily_load (env := More.env) attr_security_level
    (fst (_lazily_load (env := More.env) attr_key_identifier
            (Heap More.missing []))) =
    (Heap More.missing
          [EvOpen "/vault/data/default/I9.1password";
           EvOpen "/vault/data/default/I9.1password"],
     inl (External "FileNotFoundError")) /\
  _lazily_load (env := More.env) attr_encrypted_json (Heap More.listed []) =
    (Heap More.listed [EvOpen "/vault/data/default/L1.1password"],
     inl (AttributeError "list" "get")).
Proof.
  assert (H1 : not_loaded More.missing) by (intros [| |]; reflexivity).
  assert (H2 : not_loaded More.listed) by (intros [| |]; reflexivity).
  split; [exact H1|]. split.
  - exact (proj2 (failed_load_is_retried (env := More.env) More.missing []
                    attr_key_identifier attr_security_level H1
                    (External "FileNotFoundError") eq_refl)).
  - exact (proj1 (failed_load_is_retried (env := More.env) More.listed []
                    attr_encrypted_json attr_encrypted_json H2
                    (AttributeError "list" "get") eq_refl)).
Defined.

Lemma load_without_payload_is_partial_witness :
  let i' := KeychainItem.set_security_level (VStr "SL5")
              (KeychainItem.set_key_identifier (VStr "A1") Sample.truncated) in
  not_loaded Sample.truncated /\
  _lazily_load (env := Sample.env) attr_encrypted_json
    (Heap Sample.truncated []) =
    (Heap i' [EvOpen "/vault/data/default/I5.1password"],
     inl (KeyError (VStr "encrypted"))) /\
  security_level (env := Sample.env) (Heap i' []) =
    (Heap i' [], inr (VStr "SL5")).
Proof.
  intro i'.
  assert (H : not_loaded Sample.truncated) by (intros [| |]; reflexivity).
  pose proof (load_without_payload_is_partial (env := Sample.env)
                Sample.truncated [] []
                [("keyID", VStr "A1"); ("securityLevel", VStr "SL5")]
                attr_encrypted_json H eq_refl eq_refl)
    as (Hfirst & _ & _ & Hlevel & _).
  split; [exact H|]. split; [exact Hfirst|exact Hlevel].
Defined.

Lemma data_file_location_witness :
  startswith_sep (KeychainItem.identifier Sample.gmail) = false /\
  KeychainItem._path Sample.gmail <> ""%string /\
  data_file Sample.gmail = "/vault/data/default/I1.1password"%string /\
  startswith_sep (KeychainItem.identifier More.outside) = true /\
  data_file More.outside = "/etc/other.1password"%string.
Proof.
  assert (H : KeychainItem._path Sample.gmail <> ""%string) by discriminate.
  split; [reflexivity|]. split; [exact H|]. split.
  - exact (proj2 (data_file_location Sample.gmail) eq_refl H).
  - split; [reflexivity|].
    exact (proj1 (data_file_location More.outside) eq_refl).
Defined.

Lemma login_item_decrypts_witness :
  let out := decrypt_with (env := Sample.env) Sample.half_open_vault
               (Heap Sample.bank []) in
  KeychainItem.class Sample.bank = Password /\
  ready (env := Sample.env) Sample.bank
    (VStr "B2") (VStr "SL3") (VStr "login") /\
  snd out = inr tt /\
  KeychainItem.password (this (fst out)) = VStr "p1" /\
  KeychainItem.username (this (fst out)) = VStr "u1" /\
  KeychainItem.website (this (fst out)) = VNone /\
  calls (fst out) =
    [EvDecryptWith "I2"; EvOpen "/vault/data/default/I2.1password";
     EvKeyDecrypt "B2" (VStr "login")].
Proof.
  intro out.
  assert (Hready : ready (env := Sample.env) Sample.bank
                     (VStr "B2") (VStr "SL3") (VStr "login")).
  { right. split.
    - intros [| |]; reflexivity.
    - eexists. repeat split; reflexivity. }
  pose proof (login_item_decrypts (env := Sample.env) Sample.half_open_vault
                Sample.bank [] (VStr "B2") (VStr "SL3") (VStr "login")
                _ Sample.login_document eq_refl Hready eq_refl eq_refl)
    as Hrun.
  cbv zeta in Hrun. cbv beta iota delta [Sample.login_document] in Hrun.
  split; [reflexivity|]. split; [exact Hready|].
  subst out. rewrite Hrun. repeat split.
Defined.

Lemma web_form_item_decrypts_witness :
  let out := decrypt_with (env := Sample.env) Sample.half_open_vault
               (Heap Sample.gmail []) in
  ready (env := Sample.env) Sample.gmail
    (VStr "A1") (VStr "SL5") (VStr "web") /\
  snd out = inr tt /\
  KeychainItem.password (this (fst out)) = VStr "s3cret" /\
  KeychainItem.username (this (fst out)) = VStr "alice" /\
  KeychainItem.website (this (fst out)) = VStr "https://mail.example.org".
Proof.
  intro out.
  assert (Hready : ready (env := Sample.env) Sample.gmail
                     (VStr "A1") (VStr "SL5") (VStr "web")).
  { right. split.
    - intros [| |]; reflexivity.
    - eexists. repeat split; reflexivity. }
  pose proof (web_form_item_decrypts (env := Sample.env)
                Sample.half_open_vault Sample.gmail []
                (VStr "A1") (VStr "SL5") (VStr "web") _
                (match Sample.web_document with VDict d => d | _ => [] end)
                _ (VStr "s3cret") (VStr "alice")
                eq_refl Hready eq_refl eq_refl eq_refl eq_refl eq_refl
                eq_refl eq_refl) as Hrun.
  split; [exact Hready|]. subst out. rewrite Hrun. repeat split.
Defined.

Lemma decrypt_with_twice_witness :
  let first := decrypt_with (env := Sample.env) Sample.half_open_vault
                 (Heap Sample.bank []) in
  ready (env := Sample.env) Sample.bank
    (VStr "B2") (VStr "SL3") (VStr "login") /\
  snd first = inr tt /\
  decrypt_with (env := Sample.env) Sample.half_open_vault
    (Heap (this (fst first)) []) =
    (Heap (this (fst first))
          [EvDecryptWith "I2"; EvKeyDecrypt "B2" (VStr "login")],
     inr tt).
Proof.
  intro first.
  assert (Hready : ready (env := Sample.env) Sample.bank
                     (VStr "B2") (VStr "SL3") (VStr "login")).
  { right. split.
    - intros [| |]; reflexivity.
    - eexists. repeat split; reflexivity. }
  destruct (decrypt_with_twice (env := Sample.env) Sample.half_open_vault
              Sample.bank [] (VStr "B2") (VStr "SL3") (VStr "login")
              (fst first) Hready eq_refl []) as (k & Hkey & Hsecond).
  split; [exact Hready|]. split; [reflexivity|].
  injection Hkey as <-. exact Hsecond.
Defined.


Lemma load_encryption_keys_table_witness :
  let out := _load_encryption_keys (env := More.env) (Heap More.vault2 []) in
  snd out = inr tt /\
  keys (Keychain._encryption_keys (this (fst out))) = ["A1"; "B2"]%string /\
  NoDup (keys (Keychain._encryption_keys (this (fst out)))) /\
  key (this (fst out)) (VStr "A1") VNone =
    inr (Some (EncryptionKey.Make "A1" "SL4" "" 1000 "" None)).
Proof.
  intro out.
  pose proof (load_encryption_keys_table (env := More.env) More.vault2 []
                _ _ _
                [EncryptionKey.Make "A1" "SL5" "" 1000 "" None;
                 EncryptionKey.Make "B2" "SL3" "" 1000 "" None;
                 EncryptionKey.Make "A1" "SL4" "" 1000 "" None]
                eq_refl eq_refl eq_refl) as H.
  cbv zeta in H.
  assert (Hkeys : Forall2
            (fun d k => new_key (Collaborators := More.env) d = inr k)
            [VDict [("identifier", VStr "A1"); ("level", VStr "SL5")];
             VDict [("identifier", VStr "B2"); ("level", VStr "SL3")];
             VDict [("identifier", VStr "A1"); ("level", VStr "SL4")]]
            [EncryptionKey.Make "A1" "SL5" "" 1000 "" None;
             EncryptionKey.Make "B2" "SL3" "" 1000 "" None;
             EncryptionKey.Make "A1" "SL4" "" 1000 "" None])
    by (repeat constructor).
  destruct (H Hkeys) as (Hrun & Hnodup & _ & Hkey).
  subst out. rewrite Hrun. cbn [fst snd this].
  split; [reflexivity|]. split; [reflexivity|]. split; [exact Hnodup|].
  exact (proj2 (Hkey "A1"%string _ VNone ltac:(discriminate) eq_refl)).
Defined.

Lemma load_encryption_keys_failures_witness :
  _load_encryption_keys (env := More.env) (Heap More.vault9 []) =
    (Heap More.vault9 [EvOpen "/vault9/data/default/encryptionKeys.js"],
     inl (External "FileNotFoundError")) /\
  _load_encryption_keys (env := More.env) (Heap More.vault4 []) =
    (Heap (Keychain.set_encryption_keys [] More.vault4)
          [EvOpen "/vault4/data/default/encryptionKeys.js"],
     inl (KeyError (VStr "list"))) /\
  _load_encryption_keys (env := More.env) (Heap More.vault3 []) =
    (Heap (Keychain.set_encryption_keys
             [("A1", EncryptionKey.Make "A1" "SL5" "" 1000 "" None)]
             More.vault3)
          [EvOpen "/vault3/data/default/encryptionKeys.js"],
     inl (TypeError "argument after ** must be a mapping")).
Proof.
  split; [|split].
  - exact (proj1 (load_encryption_keys_failures (env := More.env)
                    More.vault9 []) _ eq_refl).
  - exact (proj1 (proj2 (load_encryption_keys_failures (env := More.env)
                           More.vault4 [])) _ _ eq_refl eq_refl).
  - refine (proj2 (proj2 (load_encryption_keys_failures (env := More.env)
                            More.vault3 []))
              _ _
              [VDict [("identifier", VStr "A1"); ("level", VStr "SL5")]]
              [EncryptionKey.Make "A1" "SL5" "" 1000 "" None]
              (VStr "junk")
              [VDict [("identifier", VStr "B2"); ("level", VStr "SL3")]]
              _ eq_refl eq_refl eq_refl _ eq_refl).
    repeat constructor.
Defined.

Lemma load_item_definitions_table_witness :
  let out := load_item_definitions More.rows (Heap Sample.empty_vault []) in
  NoDup (keys (Keychain._items Sample.empty_vault)) /\
  snd out = inr tt /\
  keys (Keychain._items (this (fst out))) = ["gmail"; "bank"]%string /\
  NoDup (keys (Keychain._items (this (fst out)))) /\
  dict_lookup "gmail" (Keychain._items (this (fst out))) =
    Some (KeychainItem.build "I8" "securenotes.SecureNote" "gmail" "/vault").
Proof.
  intro out.
  assert (H0 : NoDup (keys (Keychain._items Sample.empty_vault)))
    by constructor.
  pose proof (load_item_definitions_table More.rows Sample.empty_vault [])
    as (Hrun & Hnodup & _ & Hlookup & _).
  split; [exact H0|]. subst out. rewrite Hrun. cbn [fst snd this].
  split; [reflexivity|]. split; [reflexivity|]. split; [exact (Hnodup H0)|].
  exact (Hlookup "gmail"%string).
Defined.

